(** * music-sync: a shallow embedding of [music_sync/__main__.py]

    The program lists a YouTube playlist page by page, records the
    playlist as a dated JSON report on Google Drive, then downloads the
    audio of every item and uploads it to Drive, catching failures per
    item.

    The three remote services are the environment of the program.  They
    are modelled as oracles ([Env]); every call the program makes is
    recorded, in order, in a trace of [event]s, next to the outcome of
    the computation (a value, a raised exception, or an exhausted loop
    budget for the only unbounded loop, the page loop). *)

From Stdlib Require Import List String Ascii Bool Arith Lia.
From Stdlib Require Import ZArith QArith Qminmax Lqa.
From Stdlib Require Strings.Byte.
Import ListNotations.

Local Open Scope nat_scope.
Local Open Scope list_scope.
Local Open Scope string_scope.

(** ** Exceptions and outcomes *)

(** A raised instance of Python's [Exception]: its class and [str(e)]. *)
Record Exception : Type := mkException {
  exc_class : string;
  exc_str : string
}.

Inductive outcome (A : Type) : Type :=
| Ret (a : A)               (* the computation returned [a] *)
| Raise (e : Exception)     (* an exception left the computation *)
| OutOfFuel.                (* the page loop was still running *)

Arguments Ret {A} a.
Arguments Raise {A} e.
Arguments OutOfFuel {A}.

(** ** Requests sent to the providers *)

(** [youtube.playlistItems().list(part, maxResults, playlistId, pageToken)] *)
Record ListRequest : Type := mkListRequest {
  part : string;
  maxResults : nat;
  playlistId : string;
  pageToken : option string
}.

(** The JSON values the program writes. Objects keep their key order. *)
#[local] Set Warnings "-register-all".
Inductive json : Type :=
| JNull
| JString (s : string)
| JArray (l : list json)
| JObject (fields : list (string * json)).

(** What a [MediaIoBaseUpload] carries: a text document or raw bytes. *)
Inductive content : Type :=
| Text (doc : json)
| Bytes (b : list Byte.byte).

(** [drive.files().create(body={name, parents}, media_body=MediaIoBaseUpload(content, mimetype))] *)
Record CreateRequest : Type := mkCreateRequest {
  name : string;
  parents : list string;
  media : content;
  mimetype : string
}.

(** The two places where [entrypoint] calls [create(...).execute()]:
    the report upload, and the upload in the [i]-th turn of the track loop. *)
Inductive site : Type :=
| AtReport
| AtTrack (i : nat).

(** ** Traces *)

Inductive event : Type :=
| Print (line : string)                       (* console.print(line) *)
| Build (service version : string)            (* googleapiclient.discovery.build *)
| ListPage (req : ListRequest)                (* playlistItems().list(...).execute() *)
| Download (url : string)                     (* YoutubeDownloader(url)...stream_to_buffer *)
| Create (at_ : site) (req : CreateRequest) (created : bool)
                                              (* files().create(...).execute() *)
| Sleep (secs : Q).                           (* time.sleep(secs) returned *)

(** ** The effect monad: a trace and an outcome *)

Definition M (A : Type) : Type := (list event * outcome A)%type.

Definition ret {A} (a : A) : M A := ([], Ret a).

Definition bind {A B} (m : M A) (k : A -> M B) : M B :=
  match m with
  | (t, Ret a) => let (t', o) := k a in ((t ++ t')%list, o)
  | (t, Raise e) => (t, Raise e)
  | (t, OutOfFuel) => (t, OutOfFuel)
  end.

Definition raise {A} (e : Exception) : M A := ([], Raise e).

Definition emit (ev : event) : M unit := ([ev], Ret tt).

(** [try: body except Exception as e: handler(e)] *)
Definition try_except (body : M unit) (handler : Exception -> M unit) : M unit :=
  match body with
  | (t, Raise e) => let (t', o) := handler e in ((t ++ t')%list, o)
  | other => other
  end.

Declare Scope effect_scope.
Delimit Scope effect_scope with effect.
Notation "x <- c1 ;; c2" := (bind c1 (fun x => c2))
  (at level 100, c1 at next level, right associativity) : effect_scope.
Notation "c1 ;; c2" := (bind c1 (fun _ => c2))
  (at level 100, right associativity) : effect_scope.
Local Open Scope effect_scope.

Definition trace_of {A} (m : M A) : list event := fst m.
Definition outcome_of {A} (m : M A) : outcome A := snd m.

(** ** Data model *)

(** [Settings], read from the process environment. *)
Record Settings : Type := mkSettings {
  GOOGLE_CREDENTIALS : string;
  GOOGLE_AUDIO_PARENT_ID : string;
  GOOGLE_REPORTING_PARENT_ID : string;
  YOUTUBE_API_KEY : string;
  GOOGLE_SCOPES : list string;
  YOUTUBE_PLAYLIST_ID : string
}.

Definition default_GOOGLE_SCOPES : list string :=
  ["https://www.googleapis.com/auth/drive"].
Definition default_YOUTUBE_PLAYLIST_ID : string :=
  "PL6ULlZ_0mjaiYXY_oadeDfBiVnrNIHiLp".

(** One entry of a [playlistItems] page, as far as the reader looks at
    it: [item["contentDetails"]["videoId"]] and [item["snippet"]["title"]],
    each key possibly missing. *)
Record ContentDetails : Type := mkContentDetails { videoId : option string }.
Record Snippet : Type := mkSnippet { snippet_title : option string }.
Record PageItem : Type := mkPageItem {
  contentDetails : option ContentDetails;
  snippet : option Snippet
}.

(** A page: [playlist["items"]] and [playlist["nextPageToken"]], each
    possibly missing. *)
Record ListResponse : Type := mkListResponse {
  items : option (list PageItem);
  nextPageToken : option string
}.

(** [class PlaylistItem(BaseModel)]: two required [str] fields. *)
Record PlaylistItem : Type := mkPlaylistItem {
  video : string;
  title : string
}.

(** [class Playlist(BaseModel)] *)
Record Playlist : Type := mkPlaylist {
  playlist_items : list PlaylistItem;
  playlist_name : option string
}.

(** [date.today()] *)
Record date : Type := mkDate {
  year : nat;
  month : nat;
  day : nat
}.

(** ** The environment *)

(** The answers of the outside world.  The program is deterministic, so
    the answer to a call is a function of where in the run the call is
    made (which page request, which turn of the track loop) and of its
    arguments. *)
Record Env : Type := mkEnv {
  today : date;
  (* googleapiclient.discovery.build(service, version, ...) *)
  discovery_build : string -> string -> option Exception;
  (* the n-th playlistItems().list(...).execute() *)
  list_execute : nat -> ListRequest -> Exception + ListResponse;
  (* the download of the i-th turn: the bytes written to the buffer *)
  stream_to_buffer : nat -> string -> Exception + list Byte.byte;
  (* files().create(...).execute() *)
  create_execute : site -> CreateRequest -> option Exception;
  (* the two readings of perf_counter() in the i-th turn *)
  perf_counter_start : nat -> Q;
  perf_counter_stop : nat -> Q
}.

(** ** Python built-ins the program relies on *)

(** Truth value of an optional string: [None] and [""] are false. *)
Definition truthy (s : option string) : bool :=
  match s with
  | None => false
  | Some "" => false
  | Some _ => true
  end.

(** [min(x, y)]: the first argument unless the second is smaller. *)
Definition py_min (x y : Q) : Q :=
  match (y ?= x)%Q with
  | Lt => y
  | _ => x
  end.

Definition ValueError (msg : string) : Exception := mkException "ValueError" msg.

(** [time.sleep(secs)] refuses a negative length. *)
Definition sleep (secs : Q) : M unit :=
  match (secs ?= 0)%Q with
  | Lt => raise (ValueError "sleep length must be non-negative")
  | _ => emit (Sleep secs)
  end.

(** [min(30 - delay, 0)]: the length handed to [sleep] after an upload. *)
Definition throttle (delay : Q) : Q := py_min (30 - delay)%Q 0%Q.

Definition print (line : string) : M unit := emit (Print line).

(** [str(n)] for a natural number. *)
Definition digit_char (d : nat) : ascii := ascii_of_nat (48 + d).

Fixpoint decimal_rec (fuel n : nat) (acc : string) : string :=
  match fuel with
  | O => acc
  | S fuel' =>
      let acc' := String (digit_char (n mod 10)) acc in
      match n / 10 with
      | O => acc'
      | q => decimal_rec fuel' q acc'
      end
  end.

Definition decimal (n : nat) : string := decimal_rec (S n) n "".

Fixpoint zeros (n : nat) : string :=
  match n with
  | O => ""
  | S n' => String "0" (zeros n')
  end.

(** [s.zfill(width)] on a string of digits. *)
Definition zfill (width : nat) (s : string) : string :=
  zeros (width - String.length s) ++ s.

(** [f"{d:%Y}"], [f"{d:%m}"], [f"{d:%d}"]: the year in decimal, month
    and day as two digits.  (For a year below 1000 the padding of [%Y] is
    the C library's choice; the theorems below take a four-digit year.) *)
Definition strftime_Y (d : date) : string := decimal (year d).
Definition strftime_m (d : date) : string := zfill 2 (decimal (month d)).
Definition strftime_d (d : date) : string := zfill 2 (decimal (day d)).

(** ** pydantic models *)

Definition newline : string := String (ascii_of_nat 10) "".

Definition none_not_allowed (field : string) : string :=
  field ++ newline ++
  "  none is not an allowed value (type=type_error.none.not_allowed)".

Definition ValidationError (model : string) (missing : list string) : Exception :=
  mkException "ValidationError"
    (decimal (List.length missing) ++ " validation error"
       ++ (if Nat.eqb (List.length missing) 1 then "" else "s") ++ " for " ++ model
       ++ String.concat "" (map (fun f => newline ++ none_not_allowed f) missing)).

(** [PlaylistItem(video=video, title=title)]: both fields are declared
    [str], so pydantic rejects [None] for either. *)
Definition PlaylistItem_init (video title : option string)
  : Exception + PlaylistItem :=
  match video, title with
  | Some v, Some t => inr (mkPlaylistItem v t)
  | None, Some _ => inl (ValidationError "PlaylistItem" ["video"])
  | Some _, None => inl (ValidationError "PlaylistItem" ["title"])
  | None, None => inl (ValidationError "PlaylistItem" ["video"; "title"])
  end.

(** [Playlist()]: no items, no name. *)
Definition Playlist_init : Playlist := mkPlaylist [] None.

(** [playlist.items.append(item)] *)
Definition items_append (playlist : Playlist) (item : PlaylistItem) : Playlist :=
  mkPlaylist (playlist_items playlist ++ [item])%list (playlist_name playlist).

(** [playlist.json()], as the JSON value of the text it returns: the
    fields in declaration order. *)
Definition PlaylistItem_dict (item : PlaylistItem) : json :=
  JObject [("video", JString (video item)); ("title", JString (title item))].

Definition Playlist_json (playlist : Playlist) : json :=
  JObject [("items", JArray (map PlaylistItem_dict (playlist_items playlist)));
           ("name", match playlist_name playlist with
                    | Some s => JString s
                    | None => JNull
                    end)].

(** Lifting a checked result into the effect monad. *)
Definition lift {A} (r : Exception + A) : M A :=
  match r with
  | inl e => raise e
  | inr a => ret a
  end.

(** [for x in l: s = body(s, x)] *)
Fixpoint for_each {St A} (body : St -> A -> M St) (l : list A) (s : St) : M St :=
  match l with
  | [] => ret s
  | x :: rest => s' <- body s x ;; for_each body rest s'
  end.

(** ** The program *)

Section Program.

Variable env : Env.
Variable settings : Settings.

(** *** Calls to the providers *)

Definition discovery_build_call (service version : string) : M unit :=
  emit (Build service version) ;;
  match discovery_build env service version with
  | Some e => raise e
  | None => ret tt
  end.

(** [Youtube(settings)] *)
Definition Youtube : M unit := discovery_build_call "youtube" "v3".

(** [GoogleDrive(settings)]: the credentials file and the client. *)
Definition GoogleDrive : M unit := discovery_build_call "drive" "v3".

Definition playlistItems_list (n : nat) (req : ListRequest) : M ListResponse :=
  emit (ListPage req) ;;
  lift (list_execute env n req).

Definition files_create (at_ : site) (req : CreateRequest) : M unit :=
  match create_execute env at_ req with
  | Some e => emit (Create at_ req false) ;; raise e
  | None => emit (Create at_ req true)
  end.

Definition download (i : nat) (url : string) : M (list Byte.byte) :=
  emit (Download url) ;;
  lift (stream_to_buffer env i url).

(** *** [YoutubePlaylist]: the Playlist Reader *)

(** [item.get("contentDetails", {}).get("videoId")] *)
Definition item_video (item : PageItem) : option string :=
  match contentDetails item with
  | Some details => videoId details
  | None => None
  end.

(** [item.get("snippet", {}).get("title")] *)
Definition item_title (item : PageItem) : option string :=
  match snippet item with
  | Some s => snippet_title s
  | None => None
  end.

(** The pairs yielded for one page: one per entry of
    [playlist.get("items", [])]. *)
Definition page_pairs (playlist : ListResponse)
  : list (option string * option string) :=
  map (fun item => (item_video item, item_title item))
      (match items playlist with
       | Some l => l
       | None => []
       end).

Definition page_request (playlist_id : string) (page_token : option string)
  : ListRequest :=
  mkListRequest "snippet,contentDetails" 25 playlist_id page_token.

(** [for pair in YoutubePlaylist(youtube, playlist_id): s = body(s, pair)].
    The generator is lazy: the body runs on the pairs of a page before the
    next page is requested.  [n] counts the page requests made so far and
    [fuel] bounds the turns of [while has_next]. *)
Fixpoint YoutubePlaylist_from {St} (fuel n : nat) (playlist_id : string)
    (page_token : option string)
    (body : St -> option string * option string -> M St) (s : St) : M St :=
  match fuel with
  | O => ([], OutOfFuel)
  | S fuel' =>
      playlist <- playlistItems_list n (page_request playlist_id page_token) ;;
      s' <- for_each body (page_pairs playlist) s ;;
      let page_token' := nextPageToken playlist in
      if truthy page_token'
      then YoutubePlaylist_from fuel' (S n) playlist_id page_token' body s'
      else ret s'
  end.

Definition YoutubePlaylist {St} (fuel : nat) (playlist_id : string)
    (body : St -> option string * option string -> M St) (s : St) : M St :=
  YoutubePlaylist_from fuel 0 playlist_id None body s.

(** [list(YoutubePlaylist(youtube, playlist_id))]: everything the reader
    yields. *)
Definition collect (acc : list (option string * option string))
    (pair : option string * option string)
  : M (list (option string * option string)) :=
  ret (acc ++ [pair])%list.

Definition YoutubePlaylist_list (fuel : nat) (playlist_id : string)
  : M (list (option string * option string)) :=
  YoutubePlaylist fuel playlist_id collect [].

(** *** The Snapshot Builder (lines 89-92) *)

Definition snapshot_body (playlist : Playlist)
    (pair : option string * option string) : M Playlist :=
  let (video, title) := pair in
  item <- lift (PlaylistItem_init video title) ;;
  ret (items_append playlist item).

Definition build_snapshot (fuel : nat) : M Playlist :=
  YoutubePlaylist fuel (YOUTUBE_PLAYLIST_ID settings) snapshot_body Playlist_init.

(** *** The Metadata Publisher (lines 96-104) *)

Definition report_name : string :=
  "youtube-" ++ YOUTUBE_PLAYLIST_ID settings ++ "-"
    ++ strftime_Y (today env) ++ strftime_m (today env) ++ strftime_d (today env)
    ++ ".json".

Definition report_request (playlist : Playlist) : CreateRequest :=
  mkCreateRequest report_name [GOOGLE_REPORTING_PARENT_ID settings]
                  (Text (Playlist_json playlist)) "application/json".

Definition publish_metadata (playlist : Playlist) : M unit :=
  files_create AtReport (report_request playlist).

(** *** Track Transfer (lines 106-130) *)

Definition watch_url (item : PlaylistItem) : string :=
  "https://youtube.com/watch?v=" ++ video item.

Definition audio_request (item : PlaylistItem) (buffer : list Byte.byte)
  : CreateRequest :=
  mkCreateRequest (title item ++ ".mp3") [GOOGLE_AUDIO_PARENT_ID settings]
                  (Bytes buffer) "audio/mpeg3".

Definition warning (item : PlaylistItem) (e : Exception) : string :=
  ":warning: [yellow]error while processing track " ++ title item ++ ": "
    ++ exc_str e ++ "[/yellow]".

(** The body of the track loop, in its [i]-th turn. *)
Definition transfer_track (i : nat) (item : PlaylistItem) : M unit :=
  print (":cd: downloading " ++ title item ++ " from YouTube") ;;
  try_except
    (buffer <- download i (watch_url item) ;;
     let start := perf_counter_start env i in
     print (":speak_no_evil: uploading " ++ title item ++ ".mp3 to GDrive") ;;
     files_create (AtTrack i) (audio_request item buffer) ;;
     let delay := (perf_counter_stop env i - start)%Q in
     sleep (throttle delay))
    (fun e => print (warning item e)).

(** [for item in playlist.items: ...], from turn [i] on. *)
Fixpoint transfer_tracks (i : nat) (l : list PlaylistItem) : M unit :=
  match l with
  | [] => ret tt
  | item :: rest => transfer_track i item ;; transfer_tracks (S i) rest
  end.

(** *** [entrypoint]: the Run Orchestrator *)

Definition entrypoint (fuel : nat) : M unit :=
  Youtube ;;
  print ":inbox_tray: downloading playlist metadata" ;;
  playlist <- build_snapshot fuel ;;
  print ":inbox_tray: uploading playlist metadata to GDrive" ;;
  GoogleDrive ;;
  publish_metadata playlist ;;
  transfer_tracks 0 (playlist_items playlist).

End Program.

(** ** What a trace shows *)

Definition is_warning (line : string) : bool := String.prefix ":warning:" line.

(** The warning lines printed. *)
Definition warnings (t : list event) : list string :=
  flat_map (fun ev => match ev with
                      | Print line => if is_warning line then [line] else []
                      | _ => []
                      end) t.

(** The URLs whose download was started. *)
Definition downloads (t : list event) : list string :=
  flat_map (fun ev => match ev with
                      | Download url => [url]
                      | _ => []
                      end) t.

(** The create calls of the track loop, and those that made an object. *)
Definition audio_calls (t : list event) : list CreateRequest :=
  flat_map (fun ev => match ev with
                      | Create (AtTrack _) req _ => [req]
                      | _ => []
                      end) t.

Definition audio_objects (t : list event) : list CreateRequest :=
  flat_map (fun ev => match ev with
                      | Create (AtTrack _) req true => [req]
                      | _ => []
                      end) t.

(** The create calls for the report, each with whether it made an object. *)
Definition report_calls (t : list event) : list (CreateRequest * bool) :=
  flat_map (fun ev => match ev with
                      | Create AtReport req created => [(req, created)]
                      | _ => []
                      end) t.

(** The page requests, in order. *)
Definition page_requests (t : list event) : list ListRequest :=
  flat_map (fun ev => match ev with
                      | ListPage req => [req]
                      | _ => []
                      end) t.

(** What every run does before the first page request, and between the
    last page and the report upload. *)
Definition started : list event :=
  [Build "youtube" "v3"; Print ":inbox_tray: downloading playlist metadata"].
Definition publishing : list event :=
  [Print ":inbox_tray: uploading playlist metadata to GDrive"; Build "drive" "v3"].

(** A fetch or an audio upload: the work of Track Transfer. *)
Definition is_transfer (ev : event) : bool :=
  match ev with
  | Download _ => true
  | Create (AtTrack _) _ _ => true
  | _ => false
  end.

(** The name an item's audio object is given. *)
Definition mp3_name (item : PlaylistItem) : string := title item ++ ".mp3".

(** The measured upload time of the [i]-th turn. *)
Definition elapsed (env : Env) (i : nat) : Q :=
  (perf_counter_stop env i - perf_counter_start env i)%Q.

(** The [i]-th turn fails with [e], in the download or in the upload. *)
Definition track_fails (env : Env) (settings : Settings) (i : nat)
    (item : PlaylistItem) (e : Exception) : Prop :=
  stream_to_buffer env i (watch_url item) = inl e \/
  exists buffer,
    stream_to_buffer env i (watch_url item) = inr buffer /\
    create_execute env (AtTrack i) (audio_request settings item buffer) = Some e.

(** Download and upload of the [i]-th turn both succeed. *)
Definition track_succeeds (env : Env) (settings : Settings) (i : nat)
    (item : PlaylistItem) : Prop :=
  exists buffer,
    stream_to_buffer env i (watch_url item) = inr buffer /\
    create_execute env (AtTrack i) (audio_request settings item buffer) = None.

(** The provider answers the page requests that start at request [n]
    with token [page_token] by the pages [resps], one after the other:
    every page but the last carries the token of the next request, and the
    last page carries none. *)
Fixpoint serves (env : Env) (playlist_id : string) (n : nat)
    (page_token : option string) (resps : list ListResponse) : Prop :=
  match resps with
  | [] => False
  | r :: rest =>
      list_execute env n (page_request playlist_id page_token) = inr r /\
      match rest with
      | [] => truthy (nextPageToken r) = false
      | _ => truthy (nextPageToken r) = true /\
             serves env playlist_id (S n) (nextPageToken r) rest
      end
  end.

(** The requests the pages [resps] call for: the first with the token
    at hand, each later one with the token of the page before it. *)
Definition requests_from (playlist_id : string) (page_token : option string)
    (resps : list ListResponse) : list ListRequest :=
  page_request playlist_id page_token
    :: map (fun r => page_request playlist_id (nextPageToken r)) (removelast resps).

Definition requests_for (playlist_id : string) (resps : list ListResponse)
  : list ListRequest :=
  requests_from playlist_id None resps.

(** A loop body without effects of its own, as a checked fold step. *)
Fixpoint fold_result {St A} (f : St -> A -> Exception + St) (l : list A) (s : St)
  : Exception + St :=
  match l with
  | [] => inr s
  | x :: rest =>
      match f s x with
      | inl e => inl e
      | inr s' => fold_result f rest s'
      end
  end.

(** The body of the Snapshot Builder's loop as such a step. *)
Definition snapshot_step (playlist : Playlist)
    (pair : option string * option string) : Exception + Playlist :=
  match PlaylistItem_init (fst pair) (snd pair) with
  | inl e => inl e
  | inr item => inr (items_append playlist item)
  end.

(** The body of [list(...)]: collect what is yielded. *)
Definition collect_step (acc : list (option string * option string))
    (pair : option string * option string)
  : Exception + list (option string * option string) :=
  inr (acc ++ [pair])%list.

(** The entries of all pages, in page order. *)
Definition page_entries (resps : list ListResponse) : list PageItem :=
  flat_map (fun r => match items r with Some l => l | None => [] end) resps.

Definition entry_pair (item : PageItem) : option string * option string :=
  (item_video item, item_title item).

Definition item_pair (item : PlaylistItem) : option string * option string :=
  (Some (video item), Some (title item)).

Definition complete (pair : option string * option string) : Prop :=
  fst pair <> None /\ snd pair <> None.

(** What is to be yielded for an entry of a page: its video id and its
    title, read from the entry itself, each [None] where the entry does not
    carry it. *)
Definition yields_fields (item : PageItem)
    (pair : option string * option string) : Prop :=
  match contentDetails item with
  | Some details => fst pair = videoId details
  | None => fst pair = None
  end /\
  match snippet item with
  | Some s => snd pair = snippet_title s
  | None => snd pair = None
  end.

(** [YYYYMMDD], digit by digit. *)
Definition YYYYMMDD (d : date) : string :=
  String (digit_char (year d / 1000))
    (String (digit_char (year d / 100 mod 10))
      (String (digit_char (year d / 10 mod 10))
        (String (digit_char (year d mod 10))
          (String (digit_char (month d / 10))
            (String (digit_char (month d mod 10))
              (String (digit_char (day d / 10))
                (String (digit_char (day d mod 10)) ""))))))).

Definition valid_date (d : date) : Prop :=
  1000 <= year d < 10 * 1000 /\ 1 <= month d <= 12 /\ 1 <= day d <= 31.

(** ** Reading a snapshot document back *)

(** [d.get(key)] on the object read from a document: a key given twice
    keeps its last value. *)
Fixpoint dict_get (key : string) (fields : list (string * json)) : option json :=
  match fields with
  | [] => None
  | (k, v) :: rest =>
      match dict_get key rest with
      | Some v' => Some v'
      | None => if String.eqb k key then Some v else None
      end
  end.

(** Modelled from the spec: reading one item of a snapshot document, an
    object with string fields [video] and [title]; the source has no reader,
    the fields are those of [PlaylistItem]. *)
Definition PlaylistItem_parse (j : json) : option PlaylistItem :=
  match j with
  | JObject fields =>
      match dict_get "video" fields, dict_get "title" fields with
      | Some (JString v), Some (JString t) => Some (mkPlaylistItem v t)
      | _, _ => None
      end
  | _ => None
  end.

Fixpoint parse_all (l : list json) : option (list PlaylistItem) :=
  match l with
  | [] => Some []
  | j :: rest =>
      match PlaylistItem_parse j, parse_all rest with
      | Some item, Some rest' => Some (item :: rest')
      | _, _ => None
      end
  end.

(** Modelled from the spec: "parsing the snapshot document" back into a
    Playlist.  The source only writes the document ([playlist.json()]) and
    never reads one; the reading is that of the two pydantic models, an
    object whose [items] is a list of item objects (empty when absent) and
    whose [name] is a string, [null] or absent; other keys are ignored. *)
Definition Playlist_parse (j : json) : option Playlist :=
  match j with
  | JObject fields =>
      let parsed_items :=
        match dict_get "items" fields with
        | None => Some []
        | Some (JArray l) => parse_all l
        | Some _ => None
        end in
      let parsed_name :=
        match dict_get "name" fields with
        | None | Some JNull => Some None
        | Some (JString s) => Some (Some s)
        | Some _ => None
        end in
      match parsed_items, parsed_name with
      | Some l, Some n => Some (mkPlaylist l n)
      | _, _ => None
      end
  | _ => None
  end.

(** ** A paging provider *)

(** A listing provider that serves [entries] page by page, as many per
    page as the request asks for; the answer to the [n]-th request carries
    the token [token (S n)] when entries remain after it. *)
Definition paged_response (entries : list PageItem) (token : nat -> string)
    (size n : nat) : ListResponse :=
  mkListResponse
    (Some (firstn size (skipn (size * n) entries)))
    (if Nat.ltb (size * S n) (List.length entries) then Some (token (S n)) else None).

Definition paged_list_execute (entries : list PageItem) (token : nat -> string)
  : nat -> ListRequest -> Exception + ListResponse :=
  fun n req => inr (paged_response entries token (maxResults req) n).

(** The number of pages for [N] entries: ceil(N / size), and one (empty)
    page for an empty playlist. *)
Definition page_count (size N : nat) : nat := Nat.max 1 ((N + (size - 1)) / size).

Definition paged_responses (entries : list PageItem) (token : nat -> string)
    (size : nat) : list ListResponse :=
  map (paged_response entries token size)
      (seq 0 (page_count size (List.length entries))).

(** ** Sample runs *)

Definition sample_settings : Settings :=
  mkSettings "{}" "audio-folder" "report-folder" "api-key"
             default_GOOGLE_SCOPES "PL_x".

Definition entry (v t : string) : PageItem :=
  mkPageItem (Some (mkContentDetails (Some v))) (Some (mkSnippet (Some t))).

Definition one_page (l : list PageItem) : nat -> ListRequest -> Exception + ListResponse :=
  fun _ _ => inr (mkListResponse (Some l) None).

Definition two_songs : list PageItem := [entry "v1" "Song A"; entry "v2" "Song B"].

Definition ProviderError (msg : string) : Exception := mkException "HttpError" msg.

(** Two songs on 2024-03-01, every call succeeds, uploads take a second. *)
Definition env_two_songs : Env :=
  mkEnv (mkDate 2024 3 1) (fun _ _ => None) (one_page two_songs)
        (fun _ _ => inr []) (fun _ _ => None) (fun _ => 0%Q) (fun _ => 1%Q).

(** The first download fails; the second upload takes 31 seconds. *)
Definition env_one_failure_one_slow : Env :=
  mkEnv (mkDate 2024 3 1) (fun _ _ => None) (one_page two_songs)
        (fun i _ => match i with
                    | O => inl (ProviderError "video unavailable")
                    | _ => inr []
                    end)
        (fun _ _ => None) (fun _ => 0%Q) (fun _ => 31%Q).

(** The first download fails; uploads take a second. *)
Definition env_one_failure : Env :=
  mkEnv (mkDate 2024 3 1) (fun _ _ => None) (one_page two_songs)
        (fun i _ => match i with
                    | O => inl (ProviderError "video unavailable")
                    | _ => inr []
                    end)
        (fun _ _ => None) (fun _ => 0%Q) (fun _ => 1%Q).


(** A page whose only entry has no title, and one whose only entry has
    no video id. *)
Definition env_no_title : Env :=
  mkEnv (mkDate 2024 3 1) (fun _ _ => None)
        (one_page [mkPageItem (Some (mkContentDetails (Some "v1"))) (Some (mkSnippet None))])
        (fun _ _ => inr []) (fun _ _ => None) (fun _ => 0%Q) (fun _ => 1%Q).

Definition env_no_video : Env :=
  mkEnv (mkDate 2024 3 1) (fun _ _ => None)
        (one_page [mkPageItem None (Some (mkSnippet (Some "Song A")))])
        (fun _ _ => inr []) (fun _ _ => None) (fun _ => 0%Q) (fun _ => 1%Q).

(** An empty playlist. *)
Definition env_empty : Env :=
  mkEnv (mkDate 2024 3 1) (fun _ _ => None) (one_page [])
        (fun _ _ => inr []) (fun _ _ => None) (fun _ => 0%Q) (fun _ => 1%Q).

(** The report upload is refused. *)
Definition env_report_fails : Env :=
  mkEnv (mkDate 2024 3 1) (fun _ _ => None) (one_page two_songs)
        (fun _ _ => inr [])
        (fun at_ _ => match at_ with
                      | AtReport => Some (ProviderError "quota exceeded")
                      | AtTrack _ => None
                      end)
        (fun _ => 0%Q) (fun _ => 1%Q).

(** 26 songs behind a paging provider: two pages, linked by the token
    ["page1"]. *)
Definition numbered_song (n : nat) : PageItem :=
  entry ("v" ++ decimal n) ("Song " ++ decimal n).

Definition songs_26 : list PageItem := map numbered_song (seq 0 26).

Definition page_token_name (n : nat) : string := "page" ++ decimal n.

Definition env_two_pages : Env :=
  mkEnv (mkDate 2024 3 1) (fun _ _ => None)
        (paged_list_execute songs_26 page_token_name)
        (fun _ _ => inr []) (fun _ _ => None) (fun _ => 0%Q) (fun _ => 1%Q).

(** ** What the track loop is expected to show *)

(** The lengths slept through. *)
Definition sleeps (t : list event) : list Q :=
  flat_map (fun ev => match ev with
                      | Sleep secs => [secs]
                      | _ => []
                      end) t.

(** [f] over the turns of the loop, from turn [i] on. *)
Fixpoint over_turns {A} (f : nat -> PlaylistItem -> list A) (i : nat)
    (l : list PlaylistItem) : list A :=
  match l with
  | [] => []
  | item :: rest => (f i item ++ over_turns f (S i) rest)%list
  end.

(** The create call of a turn: one when the download succeeds, with the
    downloaded bytes. *)
Definition turn_calls (env : Env) (settings : Settings) (i : nat)
    (item : PlaylistItem) : list CreateRequest :=
  match stream_to_buffer env i (watch_url item) with
  | inr buffer => [audio_request settings item buffer]
  | inl _ => []
  end.

(** The object of a turn: one when the provider accepts that call. *)
Definition turn_objects (env : Env) (settings : Settings) (i : nat)
    (item : PlaylistItem) : list CreateRequest :=
  filter (fun req => match create_execute env (AtTrack i) req with
                     | None => true
                     | Some _ => false
                     end)
         (turn_calls env settings i item).

(** The warning of a turn: for a failed download, a refused upload, or an
    upload that took more than 30 seconds. *)
Definition turn_warnings (env : Env) (settings : Settings) (i : nat)
    (item : PlaylistItem) : list string :=
  match stream_to_buffer env i (watch_url item) with
  | inl e => [warning item e]
  | inr buffer =>
      match create_execute env (AtTrack i) (audio_request settings item buffer) with
      | Some e => [warning item e]
      | None =>
          if Qlt_le_dec 30 (elapsed env i)
          then [warning item (ValueError "sleep length must be non-negative")]
          else []
      end
  end.

(** ** Providers that fail or never finish *)

(** The provider answers the page requests that start at request [n] by
    the pages [resps], each carrying a token, and raises [e] on the request
    after them. *)
Fixpoint fails_after (env : Env) (playlist_id : string) (n : nat)
    (page_token : option string) (resps : list ListResponse) (e : Exception)
  : Prop :=
  match resps with
  | [] => list_execute env n (page_request playlist_id page_token) = inl e
  | r :: rest =>
      list_execute env n (page_request playlist_id page_token) = inr r /\
      truthy (nextPageToken r) = true /\
      fails_after env playlist_id (S n) (nextPageToken r) rest e
  end.

(** The requests made when the pages [resps] all carry a token. *)
Definition requests_through (playlist_id : string) (page_token : option string)
    (resps : list ListResponse) : list ListRequest :=
  page_request playlist_id page_token
    :: map (fun r => page_request playlist_id (nextPageToken r)) resps.

(** A sequence of page requests that follows the provider's tokens: each
    asks for 25 entries of the playlist with the same parts, the first with
    the token at hand, and each later one with the token of the answer to the
    request before it, an answer that did carry one. *)
Fixpoint chained (env : Env) (playlist_id : string) (n : nat)
    (page_token : option string) (reqs : list ListRequest) : Prop :=
  match reqs with
  | [] => True
  | req :: rest =>
      (part req = "snippet,contentDetails" /\ maxResults req = 25 /\
       playlistId req = playlist_id /\ pageToken req = page_token) /\
      match rest with
      | [] => True
      | _ =>
          exists r,
            list_execute env n req = inr r /\
            truthy (nextPageToken r) = true /\
            chained env playlist_id (S n) (nextPageToken r) rest
      end
  end.

(** More sample runs *)

(** The second page request is refused. *)
Definition env_second_page_fails : Env :=
  mkEnv (mkDate 2024 3 1) (fun _ _ => None)
        (fun n _ => match n with
                    | O => inr (mkListResponse (Some two_songs) (Some "page1"))
                    | _ => inl (ProviderError "backend error")
                    end)
        (fun _ _ => inr []) (fun _ _ => None) (fun _ => 0%Q) (fun _ => 1%Q).

(** Every page announces another one. *)
Definition env_endless : Env :=
  mkEnv (mkDate 2024 3 1) (fun _ _ => None)
        (fun _ _ => inr (mkListResponse (Some two_songs) (Some "again")))
        (fun _ _ => inr []) (fun _ _ => None) (fun _ => 0%Q) (fun _ => 1%Q).

(** The Drive client cannot be built. *)
Definition env_no_drive : Env :=
  mkEnv (mkDate 2024 3 1)
        (fun service _ => if String.eqb service "drive"
                          then Some (mkException "DefaultCredentialsError" "bad key")
                          else None)
        (one_page two_songs)
        (fun _ _ => inr []) (fun _ _ => None) (fun _ => 0%Q) (fun _ => 1%Q).

(** Two pages; the first entry of the second page has no title. *)
Definition pages_second_incomplete : list ListResponse :=
  [mkListResponse (Some two_songs) (Some "page1");
   mkListResponse (Some [mkPageItem (Some (mkContentDetails (Some "v3")))
                                    (Some (mkSnippet None))])
                  (Some "page2");
   mkListResponse (Some [entry "v4" "Song D"]) None].

Definition env_second_incomplete : Env :=
  mkEnv (mkDate 2024 3 1) (fun _ _ => None)
        (fun n _ => inr (nth n pages_second_incomplete (mkListResponse None None)))
        (fun _ _ => inr []) (fun _ _ => None) (fun _ => 0%Q) (fun _ => 1%Q).

(** Three songs: the first download fails, the second upload is refused,
    the third upload takes 45 seconds. *)
Definition three_songs : list PageItem :=
  [entry "v1" "Song A"; entry "v2" "Song B"; entry "v3" "Song C"].

Definition env_mixed : Env :=
  mkEnv (mkDate 2024 3 1) (fun _ _ => None) (one_page three_songs)
        (fun i _ => match i with
                    | O => inl (ProviderError "video unavailable")
                    | _ => inr []
                    end)
        (fun at_ _ => match at_ with
                      | AtTrack 1 => Some (ProviderError "quota exceeded")
                      | _ => None
                      end)
        (fun _ => 0%Q)
        (fun i => match i with
                  | 2 => 45%Q
                  | _ => 1%Q
                  end).

(** ** The console *)

(** [console.print(line)] renders the markup of its line before writing
    it, and raises when the markup is malformed (a closing tag that matches
    no open tag, which a title or an error text can bring in).  The console
    is part of the environment: for a line, the exception [print] raises on
    it, if any.  [print] above is the console that accepts every line. *)
Definition Console : Type := string -> option Exception.

Definition print_with (console : Console) (line : string) : M unit :=
  match console line with
  | Some e => raise e
  | None => emit (Print line)
  end.

Section ProgramWithConsole.

Variable console : Console.
Variable env : Env.
Variable settings : Settings.

(** The body of the track loop (lines 107-130): the first [print] is
    outside the [try], the last one inside the handler. *)
Definition transfer_track_with (i : nat) (item : PlaylistItem) : M unit :=
  print_with console (":cd: downloading " ++ title item ++ " from YouTube") ;;
  try_except
    (buffer <- download env i (watch_url item) ;;
     let start := perf_counter_start env i in
     print_with console (":speak_no_evil: uploading " ++ title item ++ ".mp3 to GDrive") ;;
     files_create env (AtTrack i) (audio_request settings item buffer) ;;
     let delay := (perf_counter_stop env i - start)%Q in
     sleep (throttle delay))
    (fun e => print_with console (warning item e)).

Fixpoint transfer_tracks_with (i : nat) (l : list PlaylistItem) : M unit :=
  match l with
  | [] => ret tt
  | item :: rest => transfer_track_with i item ;; transfer_tracks_with (S i) rest
  end.

Definition entrypoint_with (fuel : nat) : M unit :=
  Youtube env ;;
  print_with console ":inbox_tray: downloading playlist metadata" ;;
  playlist <- build_snapshot env settings fuel ;;
  print_with console ":inbox_tray: uploading playlist metadata to GDrive" ;;
  GoogleDrive env ;;
  publish_metadata env settings playlist ;;
  transfer_tracks_with 0 (playlist_items playlist).

End ProgramWithConsole.

(** *** Which lines a run needs the console to accept *)

Definition accepted (console : Console) (line : string) : bool :=
  match console line with
  | None => true
  | Some _ => false
  end.

(** The exception caught in the [i]-th turn, if any: from the download,
    from the upload, or from [sleep] after an upload of more than 30
    seconds. *)
Definition turn_error (env : Env) (settings : Settings) (i : nat)
    (item : PlaylistItem) : option Exception :=
  match stream_to_buffer env i (watch_url item) with
  | inl e => Some e
  | inr buffer =>
      match create_execute env (AtTrack i) (audio_request settings item buffer) with
      | Some e => Some e
      | None =>
          if Qlt_le_dec 30 (elapsed env i)
          then Some (ValueError "sleep length must be non-negative")
          else None
      end
  end.

(** The console accepts the lines of the [i]-th turn: the download line,
    the upload line when the download succeeds, and the warning line when
    an exception is caught. *)
Definition turn_accepted (console : Console) (env : Env) (settings : Settings)
    (i : nat) (item : PlaylistItem) : bool :=
  accepted console (":cd: downloading " ++ title item ++ " from YouTube")
  && match stream_to_buffer env i (watch_url item) with
     | inr _ =>
         accepted console (":speak_no_evil: uploading " ++ title item ++ ".mp3 to GDrive")
     | inl _ => true
     end
  && match turn_error env settings i item with
     | Some e =>
         accepted console
           (":warning: [yellow]error while processing track " ++ title item ++ ": "
              ++ exc_str e ++ "[/yellow]")
     | None => true
     end.

Fixpoint turns_accepted (console : Console) (env : Env) (settings : Settings)
    (i : nat) (l : list PlaylistItem) : bool :=
  match l with
  | [] => true
  | item :: rest =>
      turn_accepted console env settings i item
      && turns_accepted console env settings (S i) rest
  end.

(** The run got past its report upload: the console accepted the two
    fixed lines, both clients and the snapshot were built, and the provider
    accepted the report. *)
Definition report_published (console : Console) (env : Env) (settings : Settings)
    (fuel : nat) (t : list event) (playlist : Playlist) : Prop :=
  discovery_build env "youtube" "v3" = None /\
  console ":inbox_tray: downloading playlist metadata" = None /\
  build_snapshot env settings fuel = (t, Ret playlist) /\
  console ":inbox_tray: uploading playlist metadata to GDrive" = None /\
  discovery_build env "drive" "v3" = None /\
  create_execute env AtReport (report_request env settings playlist) = None.

(** *** Sample consoles and runs *)

(** A console that rejects a closing bold tag. *)
Definition MarkupError (msg : string) : Exception := mkException "MarkupError" msg.

Definition sample_console : Console :=
  fun line =>
    match String.index 0 "[/b]" line with
    | Some _ => Some (MarkupError "closing tag '[/b]' does not match any open tag")
    | None => None
    end.

(** Three songs: the first download fails, the second upload is refused,
    the third upload takes 45 seconds; the downloads differ in their bytes. *)
Definition env_mixed_bytes : Env :=
  mkEnv (mkDate 2024 3 1) (fun _ _ => None) (one_page three_songs)
        (fun i _ => match i with
                    | O => inl (ProviderError "video unavailable")
                    | 1 => inr [Byte.x01]
                    | _ => inr [Byte.x02; Byte.x03]
                    end)
        (fun at_ _ => match at_ with
                      | AtTrack 1 => Some (ProviderError "quota exceeded")
                      | _ => None
                      end)
        (fun _ => 0%Q)
        (fun i => match i with
                  | 2 => 45%Q
                  | _ => 1%Q
                  end).

(** Three songs, every call succeeds; the title of the second closes a
    tag that was never opened. *)
Definition env_bad_title : Env :=
  mkEnv (mkDate 2024 3 1) (fun _ _ => None)
        (one_page [entry "v1" "Song A"; entry "v2" "Song [/b]"; entry "v3" "Song C"])
        (fun _ _ => inr [Byte.x01]) (fun _ _ => None) (fun _ => 0%Q) (fun _ => 1%Q).

(** * Properties *)

(** ** The effect monad *)

Lemma bind_ret_l {A B} (a : A) (k : A -> M B) : bind (ret a) k = k a.
Proof. unfold bind, ret. destruct (k a) as [t o]. reflexivity. Qed.

Lemma bind_emit {B} (ev : event) (k : unit -> M B) :
  bind (emit ev) k = (ev :: trace_of (k tt), outcome_of (k tt)).
Proof. unfold bind, emit. destruct (k tt) as [t o]. reflexivity. Qed.

Lemma bind_raise {A B} (e : Exception) (k : A -> M B) :
  bind (raise e) k = raise e.
Proof. reflexivity. Qed.

Lemma bind_assoc {A B C} (m : M A) (k : A -> M B) (h : B -> M C) :
  bind (bind m k) h = bind m (fun a => bind (k a) h).
Proof.
  destruct m as [t [a|e|]]; try reflexivity.
  unfold bind at 2 3. destruct (k a) as [t' [b|e|]]; try reflexivity.
  cbn. destruct (h b) as [t'' o]. rewrite app_assoc. reflexivity.
Qed.

Lemma bind_run {A B} (m : M A) (k : A -> M B) t a :
  m = (t, Ret a) ->
  bind m k = ((t ++ trace_of (k a))%list, outcome_of (k a)).
Proof. intros ->. unfold bind. destruct (k a) as [t' o]. reflexivity. Qed.

Lemma bind_stops {A B} (m : M A) (k : A -> M B) t e :
  m = (t, Raise e) -> bind m k = (t, Raise e).
Proof. intros ->. reflexivity. Qed.

Lemma lift_silent {A} (r : Exception + A) : trace_of (lift r) = [].
Proof. destruct r; reflexivity. Qed.

(** ** One turn of the track loop *)

Section Track.

Variable env : Env.
Variable settings : Settings.
Variable i : nat.
Variable item : PlaylistItem.

Let downloading := Print (":cd: downloading " ++ title item ++ " from YouTube").
Let uploading := Print (":speak_no_evil: uploading " ++ title item ++ ".mp3 to GDrive").

Lemma transfer_track_download_fails e :
  stream_to_buffer env i (watch_url item) = inl e ->
  transfer_track env settings i item =
    ([downloading; Download (watch_url item); Print (warning item e)], Ret tt).
Proof.
  intros H. unfold transfer_track, download.
  rewrite H. reflexivity.
Qed.

Lemma transfer_track_upload_fails buffer e :
  stream_to_buffer env i (watch_url item) = inr buffer ->
  create_execute env (AtTrack i) (audio_request settings item buffer) = Some e ->
  transfer_track env settings i item =
    ([downloading; Download (watch_url item); uploading;
      Create (AtTrack i) (audio_request settings item buffer) false;
      Print (warning item e)], Ret tt).
Proof.
  intros H1 H2. unfold transfer_track, download, files_create.
  rewrite H1. cbv beta iota delta [lift bind ret emit fst snd].
  rewrite H2. reflexivity.
Qed.

Lemma transfer_track_uploaded buffer :
  stream_to_buffer env i (watch_url item) = inr buffer ->
  create_execute env (AtTrack i) (audio_request settings item buffer) = None ->
  transfer_track env settings i item =
    (([downloading; Download (watch_url item); uploading;
       Create (AtTrack i) (audio_request settings item buffer) true]
       ++ trace_of (try_except (sleep (throttle (elapsed env i)))
                               (fun e => print (warning item e))))%list,
     Ret tt).
Proof.
  intros H1 H2. unfold transfer_track, download, files_create.
  rewrite H1. cbv beta iota delta [lift bind ret emit fst snd].
  rewrite H2. unfold sleep, elapsed.
  destruct (throttle _ ?= 0)%Q; reflexivity.
Qed.

End Track.

(** ** The throttle *)

Lemma throttle_cases (delay : Q) :
  (delay < 30 /\ throttle delay = 0)%Q \/
  (30 <= delay /\ throttle delay = 30 - delay)%Q.
Proof.
  unfold throttle, py_min.
  destruct (0 ?= 30 - delay)%Q eqn:C.
  - right. split; [|reflexivity]. apply Qeq_alt in C. lra.
  - left. split; [|reflexivity]. apply Qlt_alt in C. lra.
  - right. split; [|reflexivity]. apply Qgt_alt in C. lra.
Qed.

Lemma throttle_nonpositive (delay : Q) : (throttle delay <= 0)%Q.
Proof. destruct (throttle_cases delay) as [[H ->]|[H ->]]; lra. Qed.

Lemma throttle_min (delay : Q) : (throttle delay == Qmin (30 - delay) 0)%Q.
Proof.
  destruct (throttle_cases delay) as [[H ->]|[H ->]].
  - symmetry. apply Q.min_r. lra.
  - symmetry. apply Q.min_l. lra.
Qed.

Lemma sleep_negative (secs : Q) :
  (secs < 0)%Q ->
  sleep secs = raise (ValueError "sleep length must be non-negative").
Proof.
  intros H. unfold sleep. destruct (secs ?= 0)%Q eqn:C; try reflexivity.
  - apply Qeq_alt in C. lra.
  - apply Qgt_alt in C. lra.
Qed.

Lemma sleep_zero_or_more (secs : Q) :
  (0 <= secs)%Q -> sleep secs = emit (Sleep secs).
Proof.
  intros H. unfold sleep. destruct (secs ?= 0)%Q eqn:C; try reflexivity.
  apply Qlt_alt in C. lra.
Qed.

(** C2 as stated fails at the boundary: after exactly 30 seconds the
    length handed to [sleep] is 0, not negative.  Nor is a negative length
    slept through silently: at 31 seconds [sleep] raises. *)
Lemma throttle_at_30_not_negative :
  ~ (forall delay : Q,
        ((delay < 30)%Q -> (throttle delay == 0)%Q) /\
        (~ (delay < 30)%Q ->
           (throttle delay < 0)%Q /\ outcome_of (sleep (throttle delay)) = Ret tt)) /\
  (throttle 30 == 0)%Q /\
  outcome_of (sleep (throttle 31)) =
    Raise (ValueError "sleep length must be non-negative").
Proof.
  split; [|split; reflexivity].
  intros H. destruct (H 30%Q) as [_ H30].
  destruct H30 as [Hneg _]; [lra|].
  vm_compute in Hneg. discriminate.
Qed.

(** C2, amended: after a successful upload the length handed to [sleep]
    is [min(30 - elapsed, 0)]; it is 0 whenever elapsed <= 30, and the turn
    then ends with a sleep of that length; it is negative whenever
    elapsed > 30, where [sleep] raises instead of pausing; so no sleep of
    the turn has a positive length. *)
Theorem throttle_never_delays env settings i item buffer :
  stream_to_buffer env i (watch_url item) = inr buffer ->
  create_execute env (AtTrack i) (audio_request settings item buffer) = None ->
  let delay := elapsed env i in
  let run := transfer_track env settings i item in
  (throttle delay == Qmin (30 - delay) 0)%Q /\
  ((delay <= 30)%Q ->
     (throttle delay == 0)%Q /\ In (Sleep (throttle delay)) (trace_of run)) /\
  ((30 < delay)%Q ->
     (throttle delay < 0)%Q /\
     sleep (throttle delay) = raise (ValueError "sleep length must be non-negative")) /\
  (forall secs, In (Sleep secs) (trace_of run) ->
     secs = throttle delay /\ (secs == 0)%Q).
Proof.
  intros H1 H2 delay run. subst run.
  rewrite (transfer_track_uploaded env settings i item buffer H1 H2).
  fold delay. pose proof (throttle_nonpositive delay) as Hle.
  split; [apply throttle_min|]. split; [|split].
  - intros Hd. assert (Hz : (throttle delay == 0)%Q).
    { destruct (throttle_cases delay) as [[? ->]|[? ->]]; lra. }
    split; [exact Hz|].
    rewrite sleep_zero_or_more by lra. cbn. auto 10.
  - intros Hd. assert (Hn : (throttle delay < 0)%Q).
    { destruct (throttle_cases delay) as [[? _]|[_ ->]]; lra. }
    split; [exact Hn|]. apply sleep_negative, Hn.
  - intros secs Hin. cbn [trace_of fst] in Hin.
    apply in_app_or in Hin. destruct Hin as [Hin|Hin].
    + cbn in Hin. repeat (destruct Hin as [Hin|Hin]; [discriminate|]). contradiction.
    + unfold sleep in Hin. destruct (throttle delay ?= 0)%Q eqn:C.
      * cbn in Hin. destruct Hin as [Hin|[]]. injection Hin as <-.
        split; [reflexivity|]. apply Qeq_alt in C. exact C.
      * cbn in Hin. destruct Hin as [Hin|[]]. discriminate.
      * apply Qgt_alt in C. lra.
Qed.

Lemma throttle_never_delays_witness :
  In (Sleep 0%Q) (trace_of (transfer_track env_two_songs sample_settings 0
                                             (mkPlaylistItem "v1" "Song A"))).
Proof.
  pose proof (throttle_never_delays env_two_songs sample_settings 0
                (mkPlaylistItem "v1" "Song A") [] eq_refl eq_refl) as H.
  cbv zeta in H. destruct H as [_ [H _]].
  destruct H as [_ H]; [vm_compute; discriminate|].
  exact H.
Defined.

(** ** A turn whose upload took more than 30 seconds *)



(** ** The track loop *)

Section Tracks.

Variable env : Env.
Variable settings : Settings.

Lemma transfer_track_returns i item :
  outcome_of (transfer_track env settings i item) = Ret tt.
Proof.
  destruct (stream_to_buffer env i (watch_url item)) as [e|buffer] eqn:H1.
  - rewrite (transfer_track_download_fails _ _ _ _ _ H1). reflexivity.
  - destruct (create_execute env (AtTrack i) (audio_request settings item buffer))
      as [e|] eqn:H2.
    + rewrite (transfer_track_upload_fails _ _ _ _ _ _ H1 H2). reflexivity.
    + rewrite (transfer_track_uploaded _ _ _ _ _ H1 H2). reflexivity.
Qed.

Lemma transfer_tracks_cons i item rest :
  transfer_tracks env settings i (item :: rest) =
    ((trace_of (transfer_track env settings i item)
        ++ trace_of (transfer_tracks env settings (S i) rest))%list,
     outcome_of (transfer_tracks env settings (S i) rest)).
Proof.
  cbn [transfer_tracks].
  pose proof (transfer_track_returns i item) as H.
  destruct (transfer_track env settings i item) as [t o]. cbn in H. subst o.
  exact (bind_run _ (fun _ => transfer_tracks env settings (S i) rest) t tt eq_refl).
Qed.

(** The loop always runs to its end: no turn lets an exception out. *)
Lemma transfer_tracks_returns l : forall i,
  outcome_of (transfer_tracks env settings i l) = Ret tt.
Proof.
  induction l as [|item rest IH]; intros i.
  - reflexivity.
  - rewrite transfer_tracks_cons. apply IH.
Qed.

Lemma transfer_tracks_app l1 : forall i l2,
  trace_of (transfer_tracks env settings i (l1 ++ l2)%list) =
    (trace_of (transfer_tracks env settings i l1)
       ++ trace_of (transfer_tracks env settings (i + List.length l1) l2))%list.
Proof.
  induction l1 as [|item rest IH]; intros i l2.
  - cbn. rewrite Nat.add_0_r. reflexivity.
  - cbn [app List.length]. rewrite !transfer_tracks_cons. cbn [trace_of fst].
    rewrite IH, <- app_assoc.
    replace (i + S (List.length rest)) with (S i + List.length rest) by lia.
    reflexivity.
Qed.

End Tracks.

(** ** What the track loop shows in the trace *)

Lemma warnings_app t1 t2 : warnings (t1 ++ t2) = (warnings t1 ++ warnings t2)%list.
Proof. apply flat_map_app. Qed.

Lemma downloads_app t1 t2 : downloads (t1 ++ t2) = (downloads t1 ++ downloads t2)%list.
Proof. apply flat_map_app. Qed.

Lemma audio_objects_app t1 t2 :
  audio_objects (t1 ++ t2) = (audio_objects t1 ++ audio_objects t2)%list.
Proof. apply flat_map_app. Qed.

Lemma audio_calls_app t1 t2 :
  audio_calls (t1 ++ t2) = (audio_calls t1 ++ audio_calls t2)%list.
Proof. apply flat_map_app. Qed.

Lemma report_calls_app t1 t2 :
  report_calls (t1 ++ t2) = (report_calls t1 ++ report_calls t2)%list.
Proof. apply flat_map_app. Qed.

Lemma page_requests_app t1 t2 :
  page_requests (t1 ++ t2) = (page_requests t1 ++ page_requests t2)%list.
Proof. apply flat_map_app. Qed.

Section TrackLoop.

Variable env : Env.
Variable settings : Settings.

(** A turn that succeeds within 30 seconds: an object, no warning. *)
Lemma turn_uploaded_in_time i item :
  track_succeeds env settings i item -> (elapsed env i <= 30)%Q ->
  warnings (trace_of (transfer_track env settings i item)) = [] /\
  map name (audio_objects (trace_of (transfer_track env settings i item))) = [mp3_name item] /\
  downloads (trace_of (transfer_track env settings i item)) = [watch_url item].
Proof.
  intros (buffer & H1 & H2) Hd.
  rewrite (transfer_track_uploaded _ _ _ _ _ H1 H2).
  rewrite sleep_zero_or_more.
  - repeat split.
  - destruct (throttle_cases (elapsed env i)) as [[? ->]|[? ->]]; lra.
Qed.

(** A turn that fails: one warning with the title and the message, no object. *)
Lemma turn_failed i item e :
  track_fails env settings i item e ->
  warnings (trace_of (transfer_track env settings i item)) = [warning item e] /\
  audio_objects (trace_of (transfer_track env settings i item)) = [] /\
  downloads (trace_of (transfer_track env settings i item)) = [watch_url item].
Proof.
  intros [H1|(buffer & H1 & H2)].
  - rewrite (transfer_track_download_fails _ _ _ _ _ H1). repeat split.
  - rewrite (transfer_track_upload_fails _ _ _ _ _ _ H1 H2). repeat split.
Qed.

Lemma loop_all_uploaded_in_time l : forall i,
  (forall j item, nth_error l j = Some item ->
     track_succeeds env settings (i + j) item /\ (elapsed env (i + j) <= 30)%Q) ->
  warnings (trace_of (transfer_tracks env settings i l)) = [] /\
  map name (audio_objects (trace_of (transfer_tracks env settings i l))) = map mp3_name l /\
  downloads (trace_of (transfer_tracks env settings i l)) = map watch_url l.
Proof.
  induction l as [|item rest IH]; intros i H.
  - repeat split.
  - rewrite transfer_tracks_cons. cbn [trace_of fst].
    rewrite warnings_app, audio_objects_app, downloads_app, map_app.
    destruct (H 0 item eq_refl) as [Hs Hd]. rewrite Nat.add_0_r in Hs, Hd.
    destruct (turn_uploaded_in_time i item Hs Hd) as (-> & -> & ->).
    destruct (IH (S i)) as (-> & -> & ->).
    + intros j it Hj. replace (S i + j) with (i + S j) by lia. apply H. exact Hj.
    + repeat split.
Qed.

(** One failing turn among turns that succeed within 30 seconds: the
    loop runs to its end, prints the one warning, with the failing item's
    title and the error message, and uploads every other item, in order. *)
Lemma loop_one_failure_in_time l1 k l2 e :
  track_fails env settings (List.length l1) k e ->
  (forall j item, nth_error (l1 ++ k :: l2) j = Some item -> j <> List.length l1 ->
     track_succeeds env settings j item /\ (elapsed env j <= 30)%Q) ->
  let run := transfer_tracks env settings 0 (l1 ++ k :: l2)%list in
  outcome_of run = Ret tt /\
  warnings (trace_of run) = [warning k e] /\
  map name (audio_objects (trace_of run)) = map mp3_name (l1 ++ l2) /\
  List.length (audio_objects (trace_of run)) = List.length (l1 ++ k :: l2) - 1 /\
  downloads (trace_of run) = map watch_url (l1 ++ k :: l2).
Proof.
  intros Hk Hothers run.
  assert (Hrun : warnings (trace_of run) = [warning k e] /\
                 map name (audio_objects (trace_of run)) = map mp3_name (l1 ++ l2) /\
                 downloads (trace_of run) = map watch_url (l1 ++ k :: l2)).
  { subst run. rewrite transfer_tracks_app, transfer_tracks_cons.
    cbn [trace_of fst Nat.add].
    rewrite !warnings_app, !audio_objects_app, !downloads_app, !map_app.
    destruct (loop_all_uploaded_in_time l1 0) as (-> & -> & ->).
    { intros j it Hj. cbn [Nat.add]. apply Hothers.
      - rewrite nth_error_app1; [exact Hj|]. apply nth_error_Some. congruence.
      - assert (j < List.length l1) by (apply nth_error_Some; congruence). lia. }
    destruct (turn_failed (List.length l1) k e Hk) as (-> & -> & ->).
    destruct (loop_all_uploaded_in_time l2 (S (List.length l1))) as (-> & -> & ->).
    { intros j it Hj. apply Hothers; [|lia].
      rewrite nth_error_app2 by lia.
      replace (S (List.length l1) + j - List.length l1) with (S j) by lia.
      exact Hj. }
    repeat split. }
  destruct Hrun as (Hw & Ha & Hd).
  split; [apply transfer_tracks_returns|].
  split; [exact Hw|]. split; [exact Ha|]. split; [|exact Hd].
  rewrite <- (length_map name), Ha, length_map, !length_app. cbn. lia.
Qed.

End TrackLoop.

Example one_failure_in_time_run :
  let run := transfer_tracks env_one_failure sample_settings 0
               [mkPlaylistItem "v1" "Song A"; mkPlaylistItem "v2" "Song B"] in
  warnings (trace_of run) =
    [":warning: [yellow]error while processing track Song A: video unavailable[/yellow]"] /\
  map name (audio_objects (trace_of run)) = ["Song B.mp3"].
Proof.
  destruct (loop_one_failure_in_time env_one_failure sample_settings
              [] (mkPlaylistItem "v1" "Song A") [mkPlaylistItem "v2" "Song B"]
              (ProviderError "video unavailable")) as (_ & Hw & Ha & _).
  - left. reflexivity.
  - intros [|[|j]] item Hj Hne;
      [exfalso; apply Hne; reflexivity| |destruct j; discriminate].
    injection Hj as <-. split; [exists []; split; reflexivity|].
    vm_compute. discriminate.
  - split; [exact Hw|exact Ha].
Qed.

(** C1 fails on the code: in a run over two items where the first
    download raises and the second item's download and upload both succeed,
    the upload taking 31 seconds, the loop runs to its end and one object is
    uploaded, but two warnings are printed: one for the failed item and one
    for the item that was uploaded. *)
Theorem one_failure_one_slow_upload_two_warnings :
  let run := entrypoint env_one_failure_one_slow sample_settings 1 in
  track_fails env_one_failure_one_slow sample_settings 0
    (mkPlaylistItem "v1" "Song A") (ProviderError "video unavailable") /\
  track_succeeds env_one_failure_one_slow sample_settings 1
    (mkPlaylistItem "v2" "Song B") /\
  outcome_of run = Ret tt /\
  map name (audio_objects (trace_of run)) = ["Song B.mp3"] /\
  warnings (trace_of run) =
    [":warning: [yellow]error while processing track Song A: video unavailable[/yellow]";
     ":warning: [yellow]error while processing track Song B: sleep length must be non-negative[/yellow]"].
Proof.
  cbv zeta. split; [left; reflexivity|].
  split; [exists []; split; reflexivity|].
  repeat split.
Qed.

(** ** Loops whose body has no effect of its own *)

Lemma for_each_lift {St A} (body : St -> A -> M St) (f : St -> A -> Exception + St) :
  (forall s x, body s x = lift (f s x)) ->
  forall l s, for_each body l s = lift (fold_result f l s).
Proof.
  intros Hbody. induction l as [|x rest IH]; intros s.
  - reflexivity.
  - cbn [for_each fold_result]. rewrite Hbody.
    destruct (f s x) as [e|s'].
    + reflexivity.
    + cbn [lift]. rewrite bind_ret_l. apply IH.
Qed.

Lemma fold_result_app {St A} (f : St -> A -> Exception + St) l1 : forall l2 s,
  fold_result f (l1 ++ l2) s =
    match fold_result f l1 s with
    | inl e => inl e
    | inr s' => fold_result f l2 s'
    end.
Proof.
  induction l1 as [|x rest IH]; intros l2 s.
  - reflexivity.
  - cbn [app fold_result]. destruct (f s x); [reflexivity|apply IH].
Qed.

Lemma fold_collect l : forall acc,
  fold_result collect_step l acc = inr (acc ++ l)%list.
Proof.
  induction l as [|x rest IH]; intros acc.
  - cbn. rewrite app_nil_r. reflexivity.
  - cbn [fold_result collect_step]. rewrite IH, <- app_assoc. reflexivity.
Qed.

Lemma snapshot_body_step playlist pair :
  snapshot_body playlist pair = lift (snapshot_step playlist pair).
Proof.
  destruct pair as [[v|] [t|]]; reflexivity.
Qed.

Lemma collect_body_step acc pair :
  collect acc pair = lift (collect_step acc pair).
Proof. reflexivity. Qed.

(** The Snapshot Builder's fold: it succeeds exactly on complete pairs,
    and then appends one item per pair, in order, leaving the name alone. *)
Lemma fold_snapshot_ok pairs : forall playlist playlist',
  fold_result snapshot_step pairs playlist = inr playlist' ->
  map item_pair (playlist_items playlist') =
    (map item_pair (playlist_items playlist) ++ pairs)%list /\
  playlist_name playlist' = playlist_name playlist.
Proof.
  induction pairs as [|[v t] rest IH]; intros playlist playlist' H.
  - cbn in H. injection H as <-. rewrite app_nil_r. auto.
  - cbn [fold_result] in H. unfold snapshot_step in H at 1. cbn [fst snd] in H.
    destruct v as [v|], t as [t|]; cbn in H; try discriminate.
    apply IH in H. destruct H as [H1 H2]. cbn in H1, H2.
    rewrite H1, H2, map_app, <- app_assoc. auto.
Qed.

Lemma fold_snapshot_complete pairs : forall playlist,
  Forall complete pairs ->
  exists playlist', fold_result snapshot_step pairs playlist = inr playlist'.
Proof.
  induction pairs as [|[v t] rest IH]; intros playlist H.
  - eexists. reflexivity.
  - inversion H as [|? ? [Hv Ht] Hrest]; subst. cbn in Hv, Ht.
    destruct v as [v|]; [|congruence]. destruct t as [t|]; [|congruence].
    cbn. apply IH, Hrest.
Qed.

Lemma fold_snapshot_incomplete pairs : forall playlist,
  Exists (fun pair => ~ complete pair) pairs ->
  exists e, fold_result snapshot_step pairs playlist = inl e /\
            exc_class e = "ValidationError".
Proof.
  induction pairs as [|[v t] rest IH]; intros playlist H.
  - inversion H.
  - cbn [fold_result]. unfold snapshot_step at 1. cbn [fst snd].
    destruct v as [v|], t as [t|]; cbn;
      try (eexists; split; reflexivity).
    apply IH. inversion H as [? ? Hbad|? ? Hrest]; subst; [|exact Hrest].
    exfalso. apply Hbad. split; discriminate.
Qed.

(** ** The Playlist Reader *)

Section Reader.

Variable env : Env.
Variable playlist_id : string.

Section Body.

Context {St : Type}.
Variable body : St -> option string * option string -> M St.
Variable f : St -> option string * option string -> Exception + St.
Hypothesis body_step : forall s pair, body s pair = lift (f s pair).

(** One turn of [while has_next]. *)
Lemma reader_turn fuel n page_token s :
  YoutubePlaylist_from env (S fuel) n playlist_id page_token body s =
    let req := page_request playlist_id page_token in
    match list_execute env n req with
    | inl e => ([ListPage req], Raise e)
    | inr playlist =>
        match fold_result f (page_pairs playlist) s with
        | inl e => ([ListPage req], Raise e)
        | inr s' =>
            if truthy (nextPageToken playlist)
            then
              let rest := YoutubePlaylist_from env fuel (S n) playlist_id
                            (nextPageToken playlist) body s' in
              (ListPage req :: trace_of rest, outcome_of rest)
            else ([ListPage req], Ret s')
        end
    end.
Proof.
  cbn [YoutubePlaylist_from]. unfold playlistItems_list. cbv zeta.
  destruct (list_execute env n (page_request playlist_id page_token))
    as [e|playlist]; [reflexivity|].
  cbn [lift]. rewrite bind_assoc, bind_emit, bind_ret_l.
  rewrite (for_each_lift body f body_step).
  destruct (fold_result f (page_pairs playlist) s) as [e|s']; [reflexivity|].
  cbn [lift]. rewrite bind_ret_l.
  destruct (truthy (nextPageToken playlist)); reflexivity.
Qed.

(** The reader talks to the listing provider only. *)
Lemma reader_trace_pages fuel : forall n page_token s ev,
  In ev (trace_of (YoutubePlaylist_from env fuel n playlist_id page_token body s)) ->
  exists req, ev = ListPage req.
Proof.
  induction fuel as [|fuel IH]; intros n page_token s ev H.
  - destruct H.
  - rewrite reader_turn in H. cbv zeta in H.
    destruct (list_execute env n _) as [e|playlist].
    { destruct H as [<-|[]]. eauto. }
    destruct (fold_result f (page_pairs playlist) s) as [e|s'].
    { destruct H as [<-|[]]. eauto. }
    destruct (truthy (nextPageToken playlist)).
    + destruct H as [<-|H]; [eauto|]. eapply IH, H.
    + destruct H as [<-|[]]. eauto.
Qed.

(** Following a chain of pages to its end. *)
Lemma reader_serves resps : forall fuel n page_token s s',
  serves env playlist_id n page_token resps ->
  List.length resps <= fuel ->
  fold_result f (flat_map page_pairs resps) s = inr s' ->
  YoutubePlaylist_from env fuel n playlist_id page_token body s =
    (map ListPage (requests_from playlist_id page_token resps), Ret s').
Proof.
  induction resps as [|r rest IH]; intros fuel n page_token s s' Hs Hfuel Hfold.
  - destruct Hs.
  - destruct fuel as [|fuel]; [cbn in Hfuel; lia|].
    cbn [serves] in Hs. destruct Hs as [Hexec Hrest].
    rewrite reader_turn. cbv zeta. rewrite Hexec.
    cbn [flat_map] in Hfold. rewrite fold_result_app in Hfold.
    destruct (fold_result f (page_pairs r) s) as [e|s1]; [discriminate|].
    destruct rest as [|r' rest].
    + rewrite Hrest. cbn in Hfold. injection Hfold as <-. reflexivity.
    + destruct Hrest as [Htok Hrest]. rewrite Htok.
      rewrite (IH fuel (S n) (nextPageToken r) s1 s' Hrest); [reflexivity| |exact Hfold].
      cbn [List.length] in *. lia.
Qed.

(** With fewer turns than pages the loop is still running. *)
Lemma reader_still_running resps : forall fuel n page_token s s',
  serves env playlist_id n page_token resps ->
  fuel < List.length resps ->
  fold_result f (flat_map page_pairs resps) s = inr s' ->
  outcome_of (YoutubePlaylist_from env fuel n playlist_id page_token body s) = OutOfFuel.
Proof.
  induction resps as [|r rest IH]; intros fuel n page_token s s' Hs Hfuel Hfold.
  - destruct Hs.
  - destruct fuel as [|fuel]; [reflexivity|].
    cbn [serves] in Hs. destruct Hs as [Hexec Hrest].
    rewrite reader_turn. cbv zeta. rewrite Hexec.
    cbn [flat_map] in Hfold. rewrite fold_result_app in Hfold.
    destruct (fold_result f (page_pairs r) s) as [e|s1]; [discriminate|].
    destruct rest as [|r' rest]; [cbn in Hfuel; lia|].
    destruct Hrest as [Htok Hrest]. rewrite Htok. cbn [outcome_of snd].
    apply (IH fuel (S n) (nextPageToken r) s1 s' Hrest); [|exact Hfold].
    cbn [List.length] in *. lia.
Qed.

End Body.

(** Any effect-free loop over the reader sees the pairs that
    [list(...)] collects, with the same page requests. *)
Lemma reader_fold {St} (body : St -> option string * option string -> M St) f :
  (forall s pair, body s pair = lift (f s pair)) ->
  forall fuel n page_token acc t l,
  YoutubePlaylist_from env fuel n playlist_id page_token collect acc = (t, Ret l) ->
  exists pairs, l = (acc ++ pairs)%list /\
    forall s,
      match fold_result f pairs s with
      | inr s' =>
          YoutubePlaylist_from env fuel n playlist_id page_token body s = (t, Ret s')
      | inl e =>
          exists t', YoutubePlaylist_from env fuel n playlist_id page_token body s
                       = (t', Raise e) /\ incl t' t
      end.
Proof.
  intros Hbody. induction fuel as [|fuel IH]; intros n page_token acc t l H.
  - discriminate.
  - rewrite (reader_turn collect collect_step collect_body_step) in H. cbv zeta in H.
    destruct (list_execute env n (page_request playlist_id page_token))
      as [e|playlist] eqn:Hexec; [discriminate|].
    rewrite fold_collect in H.
    destruct (truthy (nextPageToken playlist)) eqn:Htok.
    + destruct (YoutubePlaylist_from env fuel (S n) playlist_id
                  (nextPageToken playlist) collect (acc ++ page_pairs playlist)%list)
        as [t1 o1] eqn:Hrest.
      cbn in H. injection H as <- ->.
      destruct (IH _ _ _ _ _ Hrest) as (pairs & -> & Hpairs).
      exists (page_pairs playlist ++ pairs)%list. split; [symmetry; apply app_assoc|].
      intros s. rewrite fold_result_app, (reader_turn body f Hbody).
      cbv zeta. rewrite Hexec.
      destruct (fold_result f (page_pairs playlist) s) as [e|s1].
      * eexists. split; [reflexivity|]. intros ev [<-|[]]. left. reflexivity.
      * rewrite Htok. specialize (Hpairs s1).
        destruct (fold_result f pairs s1) as [e|s'].
        -- destruct Hpairs as (t' & -> & Hincl). eexists. split; [reflexivity|].
           cbn. intros ev [<-|Hin]; [left; reflexivity|right; apply Hincl, Hin].
        -- rewrite Hpairs. reflexivity.
    + injection H as <- <-. exists (page_pairs playlist). split; [reflexivity|].
      intros s. rewrite (reader_turn body f Hbody). cbv zeta. rewrite Hexec.
      destruct (fold_result f (page_pairs playlist) s) as [e|s'].
      * eexists. split; [reflexivity|]. apply incl_refl.
      * rewrite Htok. reflexivity.
Qed.

(** Conversely, a loop that ran to its end folded what [list(...)] collects. *)
Lemma reader_unfold {St} (body : St -> option string * option string -> M St) f :
  (forall s pair, body s pair = lift (f s pair)) ->
  forall fuel n page_token s t s' acc,
  YoutubePlaylist_from env fuel n playlist_id page_token body s = (t, Ret s') ->
  exists pairs,
    YoutubePlaylist_from env fuel n playlist_id page_token collect acc
      = (t, Ret (acc ++ pairs)%list) /\
    fold_result f pairs s = inr s'.
Proof.
  intros Hbody. induction fuel as [|fuel IH]; intros n page_token s t s' acc H.
  - discriminate.
  - rewrite (reader_turn body f Hbody) in H. cbv zeta in H.
    rewrite (reader_turn collect collect_step collect_body_step). cbv zeta.
    destruct (list_execute env n (page_request playlist_id page_token))
      as [e|playlist]; [discriminate|].
    rewrite fold_collect.
    destruct (fold_result f (page_pairs playlist) s) as [e|s1] eqn:Hfold;
      [discriminate|].
    destruct (truthy (nextPageToken playlist)).
    + destruct (YoutubePlaylist_from env fuel (S n) playlist_id
                  (nextPageToken playlist) body s1) as [t1 o1] eqn:Hrest.
      cbn in H. injection H as <- ->.
      destruct (IH _ _ _ _ _ (acc ++ page_pairs playlist)%list Hrest)
        as (pairs & -> & Hpairs).
      exists (page_pairs playlist ++ pairs)%list. cbn.
      rewrite app_assoc, fold_result_app, Hfold. auto.
    + injection H as <- <-. exists (page_pairs playlist). auto.
Qed.

End Reader.

(** ** The run as a whole *)

Section Run.

Variable env : Env.
Variable settings : Settings.

(** The stages of [entrypoint], one after the other. *)
Lemma entrypoint_stages fuel :
  entrypoint env settings fuel =
    match discovery_build env "youtube" "v3" with
    | Some e => ([Build "youtube" "v3"], Raise e)
    | None =>
        match build_snapshot env settings fuel with
        | (t, Raise e) => ((started ++ t)%list, Raise e)
        | (t, OutOfFuel) => ((started ++ t)%list, OutOfFuel)
        | (t, Ret playlist) =>
            match discovery_build env "drive" "v3" with
            | Some e => ((started ++ t ++ publishing)%list, Raise e)
            | None =>
                let req := report_request env settings playlist in
                match create_execute env AtReport req with
                | Some e =>
                    ((started ++ t ++ publishing ++ [Create AtReport req false])%list,
                     Raise e)
                | None =>
                    ((started ++ t ++ publishing ++ [Create AtReport req true]
                        ++ trace_of (transfer_tracks env settings 0
                                       (playlist_items playlist)))%list,
                     Ret tt)
                end
            end
        end
    end.
Proof.
  unfold entrypoint, Youtube, GoogleDrive, discovery_build_call, publish_metadata,
    files_create, print.
  destruct (discovery_build env "youtube" "v3"); [reflexivity|].
  rewrite bind_assoc, bind_emit, bind_ret_l, bind_emit.
  destruct (build_snapshot env settings fuel) as [t [playlist|e|]];
    [|reflexivity|reflexivity].
  rewrite (bind_run _ _ t playlist eq_refl).
  rewrite bind_emit, bind_assoc, bind_emit.
  destruct (discovery_build env "drive" "v3"); [reflexivity|].
  rewrite bind_ret_l. cbv zeta.
  destruct (create_execute env AtReport (report_request env settings playlist)).
  - reflexivity.
  - rewrite bind_emit.
    pose proof (transfer_tracks_returns env settings (playlist_items playlist) 0) as Hr.
    cbn. rewrite Hr. reflexivity.
Qed.

(** The Snapshot Builder talks to the listing provider only. *)
Lemma build_snapshot_trace_pages fuel ev :
  In ev (trace_of (build_snapshot env settings fuel)) -> exists req, ev = ListPage req.
Proof.
  apply (reader_trace_pages env _ snapshot_body snapshot_step snapshot_body_step).
Qed.

End Run.

(** ** Formatting the date *)

Lemma decimal_rec_turn fuel n acc :
  decimal_rec (S fuel) n acc =
    match n / 10 with
    | O => String (digit_char (n mod 10)) acc
    | S q => decimal_rec fuel (S q) (String (digit_char (n mod 10)) acc)
    end.
Proof. reflexivity. Qed.

Lemma decimal_rec_one_digit fuel n acc :
  n < 10 -> decimal_rec (S fuel) n acc = String (digit_char n) acc.
Proof.
  intros H. rewrite decimal_rec_turn.
  rewrite (Nat.div_small n 10 H), (Nat.mod_small n 10 H). reflexivity.
Qed.

Lemma decimal_rec_more_digits fuel n acc :
  10 <= n ->
  decimal_rec (S fuel) n acc =
    decimal_rec fuel (n / 10) (String (digit_char (n mod 10)) acc).
Proof.
  intros H. rewrite decimal_rec_turn.
  destruct (n / 10) as [|q] eqn:E; [|reflexivity].
  apply Nat.div_small_iff in E; lia.
Qed.

Lemma decimal_two_digits n :
  n < 100 ->
  zfill 2 (decimal n) = String (digit_char (n / 10)) (String (digit_char (n mod 10)) "").
Proof.
  intros H. unfold decimal. destruct (Nat.lt_ge_cases n 10) as [Hs|Hl].
  - rewrite (decimal_rec_one_digit _ _ _ Hs).
    rewrite (Nat.div_small n 10 Hs), (Nat.mod_small n 10 Hs). reflexivity.
  - rewrite (decimal_rec_more_digits _ _ _ Hl).
    destruct n as [|n]; [lia|].
    rewrite decimal_rec_one_digit; [reflexivity|].
    apply Nat.Div0.div_lt_upper_bound. lia.
Qed.

Lemma decimal_rec_four_digits fuel n :
  4 <= fuel -> 1000 <= n < 10 * 1000 ->
  decimal_rec fuel n "" =
    String (digit_char (n / 1000))
      (String (digit_char (n / 100 mod 10))
        (String (digit_char (n / 10 mod 10))
          (String (digit_char (n mod 10)) ""))).
Proof.
  intros Hfuel [Hl Hu].
  destruct fuel as [|[|[|[|fuel]]]]; try lia.
  rewrite decimal_rec_more_digits by lia.
  assert (H1 : 100 <= n / 10) by (apply Nat.div_le_lower_bound; lia).
  rewrite decimal_rec_more_digits by lia.
  assert (H2 : 10 <= n / 10 / 10) by (apply Nat.div_le_lower_bound; lia).
  rewrite decimal_rec_more_digits by lia.
  rewrite decimal_rec_one_digit.
  - rewrite !Nat.Div0.div_div. reflexivity.
  - rewrite !Nat.Div0.div_div. apply Nat.Div0.div_lt_upper_bound. lia.
Qed.

Lemma decimal_four_digits n :
  1000 <= n < 10 * 1000 ->
  decimal n =
    String (digit_char (n / 1000))
      (String (digit_char (n / 100 mod 10))
        (String (digit_char (n / 10 mod 10))
          (String (digit_char (n mod 10)) ""))).
Proof. intros H. apply decimal_rec_four_digits; [lia|exact H]. Qed.

Lemma string_app_assoc (s1 s2 s3 : string) : (s1 ++ s2) ++ s3 = s1 ++ s2 ++ s3.
Proof.
  induction s1 as [|c s1 IH]; [reflexivity|]. cbn. rewrite IH. reflexivity.
Qed.

Lemma strftime_YYYYMMDD d :
  valid_date d -> strftime_Y d ++ strftime_m d ++ strftime_d d = YYYYMMDD d.
Proof.
  intros (Hy & Hm & Hd). unfold strftime_Y, strftime_m, strftime_d, YYYYMMDD.
  rewrite (decimal_four_digits _ Hy).
  rewrite (decimal_two_digits (month d)) by lia.
  rewrite (decimal_two_digits (day d)) by lia.
  reflexivity.
Qed.

(** ** Which stage makes which calls *)

Lemma pages_only t :
  (forall ev, In ev t -> exists req, ev = ListPage req) ->
  Forall (fun ev => is_transfer ev = false) t /\
  report_calls t = [] /\ audio_calls t = [] /\ audio_objects t = [] /\
  downloads t = [] /\ warnings t = [].
Proof.
  induction t as [|ev t IH]; intros H.
  - repeat split. constructor.
  - destruct (H ev (or_introl eq_refl)) as [req ->].
    destruct IH as (H1 & H2 & H3 & H4 & H5 & H6).
    { intros ev' Hin. apply H. right. exact Hin. }
    repeat split; try assumption. constructor; [reflexivity|assumption].
Qed.

Lemma transfer_track_no_report env settings i item :
  report_calls (trace_of (transfer_track env settings i item)) = [].
Proof.
  destruct (stream_to_buffer env i (watch_url item)) as [e|buffer] eqn:H1.
  - rewrite (transfer_track_download_fails _ _ _ _ _ H1). reflexivity.
  - destruct (create_execute env (AtTrack i) (audio_request settings item buffer))
      as [e|] eqn:H2.
    + rewrite (transfer_track_upload_fails _ _ _ _ _ _ H1 H2). reflexivity.
    + rewrite (transfer_track_uploaded _ _ _ _ _ H1 H2). unfold sleep.
      destruct (throttle (elapsed env i) ?= 0)%Q; reflexivity.
Qed.

Lemma transfer_tracks_no_report env settings l : forall i,
  report_calls (trace_of (transfer_tracks env settings i l)) = [].
Proof.
  induction l as [|item rest IH]; intros i.
  - reflexivity.
  - rewrite transfer_tracks_cons. cbn [trace_of fst].
    rewrite report_calls_app, transfer_track_no_report, IH. reflexivity.
Qed.

(** ** The Metadata Publisher and the order of the stages *)

(** C4: when the report upload raises, that exception leaves
    [entrypoint], the failed call is the last thing the run does, and no
    download and no audio upload is made; and in any run, a download or an
    audio upload is preceded by the report upload having returned. *)
Theorem report_failure_aborts_before_transfer env settings fuel :
  let run := entrypoint env settings fuel in
  (forall t playlist e,
     discovery_build env "youtube" "v3" = None ->
     build_snapshot env settings fuel = (t, Ret playlist) ->
     discovery_build env "drive" "v3" = None ->
     create_execute env AtReport (report_request env settings playlist) = Some e ->
     outcome_of run = Raise e /\
     (exists before,
        trace_of run =
          (before ++ [Create AtReport (report_request env settings playlist) false])%list) /\
     downloads (trace_of run) = [] /\
     audio_calls (trace_of run) = []) /\
  (forall ev, In ev (trace_of run) -> is_transfer ev = true ->
     exists before playlist after,
       trace_of run =
         (before ++ Create AtReport (report_request env settings playlist) true
                 :: after)%list /\
       Forall (fun ev' => is_transfer ev' = false) before /\
       In ev after).
Proof.
  intros run. subst run. rewrite entrypoint_stages. split.
  - intros t playlist e Hy Hs Hd Hc. rewrite Hy, Hs, Hd. cbv zeta. rewrite Hc.
    pose proof (build_snapshot_trace_pages env settings fuel) as Hpages.
    rewrite Hs in Hpages. cbn [trace_of fst] in Hpages. apply pages_only in Hpages.
    destruct Hpages as (_ & _ & Ha & _ & Hdl & _).
    split; [reflexivity|]. split; [|split].
    + eexists. cbn [trace_of fst]. rewrite !app_assoc. reflexivity.
    + cbn [trace_of fst]. rewrite !downloads_app, Hdl. reflexivity.
    + cbn [trace_of fst]. rewrite !audio_calls_app, Ha. reflexivity.
  - intros ev Hin Htr.
    destruct (discovery_build env "youtube" "v3").
    { destruct Hin as [<-|[]]. discriminate. }
    pose proof (build_snapshot_trace_pages env settings fuel) as Hpages.
    destruct (build_snapshot env settings fuel) as [t o].
    cbn [trace_of fst] in Hpages.
    apply pages_only in Hpages. destruct Hpages as (Hno & _).
    assert (Hbefore : forall ev', In ev' t -> is_transfer ev' = false).
    { apply Forall_forall, Hno. }
    assert (Hstart : forall tail, In ev (started ++ t ++ tail)%list -> In ev tail).
    { intros tail H. apply in_app_or in H. destruct H as [H|H].
      - destruct H as [<-|[<-|[]]]; discriminate.
      - apply in_app_or in H. destruct H as [H|H]; [|exact H].
        apply Hbefore in H. congruence. }
    destruct o as [playlist|e|].
    + destruct (discovery_build env "drive" "v3").
      { apply Hstart in Hin. destruct Hin as [<-|[<-|[]]]; discriminate. }
      cbv zeta in Hin |- *.
      destruct (create_execute env AtReport (report_request env settings playlist)).
      { apply Hstart in Hin. destruct Hin as [<-|[<-|[<-|[]]]]; discriminate. }
      apply Hstart in Hin. destruct Hin as [<-|[<-|[<-|Hin]]]; try discriminate.
      exists (started ++ t ++ publishing)%list, playlist,
        (trace_of (transfer_tracks env settings 0 (playlist_items playlist))).
      cbn [trace_of fst]. split; [|split; [|exact Hin]].
      * rewrite <- !app_assoc. reflexivity.
      * apply Forall_app. split; [repeat constructor|].
        apply Forall_app. split; [exact Hno|repeat constructor].
    + rewrite <- (app_nil_r t) in Hin. apply Hstart in Hin. destruct Hin.
    + rewrite <- (app_nil_r t) in Hin. apply Hstart in Hin. destruct Hin.
Qed.

Lemma report_failure_aborts_before_transfer_witness :
  outcome_of (entrypoint env_report_fails sample_settings 1)
    = Raise (ProviderError "quota exceeded") /\
  downloads (trace_of (entrypoint env_report_fails sample_settings 1)) = [] /\
  audio_calls (trace_of (entrypoint env_report_fails sample_settings 1)) = [].
Proof.
  destruct (report_failure_aborts_before_transfer env_report_fails sample_settings 1)
    as [H _].
  destruct (H _ _ (ProviderError "quota exceeded") eq_refl eq_refl eq_refl eq_refl)
    as (Ho & _ & Hd & Ha).
  split; [exact Ho|]. split; [exact Hd|exact Ha].
Defined.

(** ** The Snapshot Builder against the reader *)

Section Snapshot.

Variable env : Env.
Variable settings : Settings.

Let pid := YOUTUBE_PLAYLIST_ID settings.

(** From what the reader yields to what the builder does with it. *)
Lemma build_snapshot_of_list fuel t pairs :
  YoutubePlaylist_list env fuel pid = (t, Ret pairs) ->
  match fold_result snapshot_step pairs Playlist_init with
  | inr playlist => build_snapshot env settings fuel = (t, Ret playlist)
  | inl e => exists t', build_snapshot env settings fuel = (t', Raise e) /\ incl t' t
  end.
Proof.
  intros H.
  destruct (reader_fold env pid snapshot_body snapshot_step snapshot_body_step
              _ _ _ _ _ _ H) as (pairs' & Heq & Hfold).
  cbn in Heq. subst pairs'. apply Hfold.
Qed.

(** A snapshot that was built holds the yielded pairs, and has no name. *)
Lemma build_snapshot_result fuel t playlist :
  build_snapshot env settings fuel = (t, Ret playlist) ->
  YoutubePlaylist_list env fuel pid = (t, Ret (map item_pair (playlist_items playlist))) /\
  playlist_name playlist = None.
Proof.
  intros H.
  destruct (reader_unfold env pid snapshot_body snapshot_step snapshot_body_step
              _ _ _ _ _ _ [] H) as (pairs & Hlist & Hfold).
  apply fold_snapshot_ok in Hfold. destruct Hfold as [Hitems Hname].
  cbn in Hitems, Hname. rewrite Hitems. split; [exact Hlist|exact Hname].
Qed.

End Snapshot.

(** C6: a run that has built its snapshot makes exactly one create call
    for the report; it goes to the reporting folder, is named
    youtube-{playlist_id}-{YYYYMMDD}.json for the run's date, has content
    type application/json, and its body is the object with the snapshot's
    items in order under "items", each as {"video": id, "title": title},
    followed by "name": null.  The object exists when the provider accepts
    the call. *)
Theorem one_report_per_run env settings fuel t playlist :
  discovery_build env "youtube" "v3" = None ->
  build_snapshot env settings fuel = (t, Ret playlist) ->
  discovery_build env "drive" "v3" = None ->
  valid_date (today env) ->
  let run := entrypoint env settings fuel in
  let req := report_request env settings playlist in
  (exists created,
     report_calls (trace_of run) = [(req, created)] /\
     (created = true <-> create_execute env AtReport req = None)) /\
  name req =
    "youtube-" ++ YOUTUBE_PLAYLIST_ID settings ++ "-" ++ YYYYMMDD (today env) ++ ".json" /\
  parents req = [GOOGLE_REPORTING_PARENT_ID settings] /\
  mimetype req = "application/json" /\
  media req =
    Text (JObject
            [("items",
              JArray (map (fun item => JObject [("video", JString (video item));
                                                ("title", JString (title item))])
                          (playlist_items playlist)));
             ("name", JNull)]).
Proof.
  intros Hy Hs Hd Hdate run req. subst run req.
  pose proof (build_snapshot_trace_pages env settings fuel) as Hpages.
  rewrite Hs in Hpages. cbn [trace_of fst] in Hpages. apply pages_only in Hpages.
  destruct Hpages as (_ & Hr & _).
  destruct (build_snapshot_result env settings fuel t playlist Hs) as [_ Hname].
  split; [|split; [|split; [reflexivity|split; [reflexivity|]]]].
  - rewrite entrypoint_stages, Hy, Hs, Hd. cbv zeta.
    destruct (create_execute env AtReport (report_request env settings playlist))
      as [e|] eqn:Hc.
    + exists false. cbn [trace_of fst].
      rewrite !report_calls_app, Hr. split; [reflexivity|].
      split; discriminate.
    + exists true. cbn [trace_of fst].
      rewrite !report_calls_app, Hr, transfer_tracks_no_report.
      split; [reflexivity|]. split; reflexivity.
  - cbn [name report_request]. unfold report_name.
    rewrite <- (strftime_YYYYMMDD _ Hdate).
    rewrite !string_app_assoc. reflexivity.
  - cbn [media report_request]. unfold Playlist_json. rewrite Hname. reflexivity.
Qed.

Lemma one_report_per_run_witness :
  report_calls (trace_of (entrypoint env_two_songs sample_settings 1)) =
    [(mkCreateRequest "youtube-PL_x-20240301.json" ["report-folder"]
        (Text (JObject
                 [("items",
                   JArray [JObject [("video", JString "v1"); ("title", JString "Song A")];
                           JObject [("video", JString "v2"); ("title", JString "Song B")]]);
                  ("name", JNull)]))
        "application/json",
      true)].
Proof.
  assert (Hdate : valid_date (today env_two_songs)) by (vm_compute; lia).
  destruct (one_report_per_run env_two_songs sample_settings 1 _ _
              eq_refl eq_refl eq_refl Hdate) as [(created & Hcalls & Hcreated) _].
  rewrite Hcalls. replace created with true; [reflexivity|].
  symmetry. apply Hcreated. reflexivity.
Defined.

(** C9: when the reader yields nothing, the run still makes its one
    create call for the report, with an empty items list, and makes no
    download and no audio upload. *)
Theorem empty_playlist_still_reported env settings fuel t :
  discovery_build env "youtube" "v3" = None ->
  YoutubePlaylist_list env fuel (YOUTUBE_PLAYLIST_ID settings) = (t, Ret []) ->
  discovery_build env "drive" "v3" = None ->
  let run := entrypoint env settings fuel in
  let req :=
    mkCreateRequest (report_name env settings) [GOOGLE_REPORTING_PARENT_ID settings]
      (Text (JObject [("items", JArray []); ("name", JNull)])) "application/json" in
  exists created,
    trace_of run = (started ++ t ++ publishing ++ [Create AtReport req created])%list /\
    (created = true <-> create_execute env AtReport req = None) /\
    (created = true -> outcome_of run = Ret tt) /\
    report_calls (trace_of run) = [(req, created)] /\
    downloads (trace_of run) = [] /\
    audio_calls (trace_of run) = [].
Proof.
  intros Hy Hl Hd run req.
  pose proof (build_snapshot_of_list env settings fuel t [] Hl) as Hs. cbn in Hs.
  pose proof (build_snapshot_trace_pages env settings fuel) as Hpages.
  rewrite Hs in Hpages. cbn [trace_of fst] in Hpages. apply pages_only in Hpages.
  destruct Hpages as (_ & Hr & Ha & _ & Hdl & _).
  subst run. rewrite entrypoint_stages, Hy, Hs, Hd. cbv zeta.
  change (report_request env settings Playlist_init) with req.
  destruct (create_execute env AtReport req) as [e|].
  - exists false. cbn [trace_of fst outcome_of snd].
    rewrite !report_calls_app, !downloads_app, !audio_calls_app, Hr, Ha, Hdl.
    repeat split; try discriminate.
  - exists true. cbn [trace_of fst outcome_of snd playlist_items Playlist_init transfer_tracks ret].
    rewrite !report_calls_app, !downloads_app, !audio_calls_app, Hr, Ha, Hdl.
    repeat split.
Qed.

Lemma empty_playlist_still_reported_witness :
  report_calls (trace_of (entrypoint env_empty sample_settings 1)) =
    [(mkCreateRequest "youtube-PL_x-20240301.json" ["report-folder"]
        (Text (JObject [("items", JArray []); ("name", JNull)])) "application/json",
      true)] /\
  downloads (trace_of (entrypoint env_empty sample_settings 1)) = [] /\
  audio_calls (trace_of (entrypoint env_empty sample_settings 1)) = [].
Proof.
  destruct (empty_playlist_still_reported env_empty sample_settings 1 _
              eq_refl eq_refl eq_refl) as (created & _ & Hc & _ & Hr & Hd & Ha).
  rewrite Hr. replace created with true by (symmetry; apply Hc; reflexivity).
  split; [reflexivity|]. split; [exact Hd|exact Ha].
Defined.

(** ** The Snapshot Builder *)

(** C8 as stated fails: the reader yields one pair for an entry without a
    video id, and no snapshot comes out of the builder, which raises on that
    pair. *)
Lemma snapshot_builder_rejects_missing_video :
  outcome_of (YoutubePlaylist_list env_no_video 1 "PL_x") = Ret [(None, Some "Song A")] /\
  outcome_of (build_snapshot env_no_video sample_settings 1) =
    Raise (ValidationError "PlaylistItem" ["video"]) /\
  forall fuel t snapshot,
    build_snapshot env_no_video sample_settings fuel <> (t, Ret snapshot).
Proof.
  split; [reflexivity|]. split; [reflexivity|].
  intros [|fuel] t snapshot; discriminate.
Qed.

(** C8, amended: for every sequence yielded by the reader in which each
    pair has both a video id and a title, the builder produces a snapshot
    with one item per pair, in yield order, duplicates included. *)
Theorem snapshot_keeps_count_and_order env settings fuel t pairs :
  YoutubePlaylist_list env fuel (YOUTUBE_PLAYLIST_ID settings) = (t, Ret pairs) ->
  Forall complete pairs ->
  exists snapshot,
    build_snapshot env settings fuel = (t, Ret snapshot) /\
    map item_pair (playlist_items snapshot) = pairs /\
    List.length (playlist_items snapshot) = List.length pairs.
Proof.
  intros Hl Hc.
  pose proof (build_snapshot_of_list env settings fuel t pairs Hl) as Hs.
  destruct (fold_snapshot_complete pairs Playlist_init Hc) as [snapshot Hfold].
  rewrite Hfold in Hs. exists snapshot.
  apply fold_snapshot_ok in Hfold. destruct Hfold as [Hitems _]. cbn in Hitems.
  split; [exact Hs|]. split; [exact Hitems|].
  rewrite <- Hitems, length_map. reflexivity.
Qed.

Lemma snapshot_keeps_count_and_order_witness :
  exists snapshot,
    outcome_of (build_snapshot env_two_songs sample_settings 1) = Ret snapshot /\
    playlist_items snapshot = [mkPlaylistItem "v1" "Song A"; mkPlaylistItem "v2" "Song B"].
Proof.
  assert (Hc : Forall complete [(Some "v1", Some "Song A"); (Some "v2", Some "Song B")]).
  { repeat constructor; discriminate. }
  destruct (snapshot_keeps_count_and_order env_two_songs sample_settings 1 _ _
              eq_refl Hc) as (snapshot & Hs & _ & _).
  exists snapshot. rewrite Hs. split; [reflexivity|].
  injection Hs as <-. reflexivity.
Defined.

(** ** Entries without a video id or a title *)

Lemma page_pairs_entries resps :
  flat_map page_pairs resps = map entry_pair (page_entries resps).
Proof.
  induction resps as [|r rest IH]; [reflexivity|].
  cbn [flat_map page_entries]. rewrite map_app, IH. reflexivity.
Qed.

Lemma reader_yields_entries env playlist_id resps fuel :
  serves env playlist_id 0 None resps ->
  List.length resps <= fuel ->
  YoutubePlaylist_list env fuel playlist_id =
    (map ListPage (requests_for playlist_id resps),
     Ret (map entry_pair (page_entries resps))).
Proof.
  intros Hs Hfuel. unfold YoutubePlaylist_list, YoutubePlaylist.
  rewrite <- page_pairs_entries.
  apply (reader_serves env playlist_id collect collect_step collect_body_step
           resps fuel 0 None [] _ Hs Hfuel).
  apply fold_collect.
Qed.

Lemma incomplete_entry_pair item :
  item_video item = None \/ item_title item = None -> ~ complete (entry_pair item).
Proof. intros [H|H] [Hv Ht]; cbn in Hv, Ht; congruence. Qed.

(** C3 as stated fails: an entry without a title is yielded by the
    reader, but it does not get into a snapshot: the builder raises on it
    and the run ends there, before any upload. *)
Lemma entry_without_title_aborts_the_run :
  outcome_of (YoutubePlaylist_list env_no_title 1 "PL_x") = Ret [(Some "v1", None)] /\
  (forall fuel t snapshot,
     build_snapshot env_no_title sample_settings fuel <> (t, Ret snapshot)) /\
  entrypoint env_no_title sample_settings 1 =
    ((started ++ [ListPage (page_request "PL_x" None)])%list,
     Raise (ValidationError "PlaylistItem" ["title"])).
Proof.
  split; [reflexivity|]. split; [|reflexivity].
  intros [|fuel] t snapshot; discriminate.
Qed.

(** C3, amended: the reader yields one pair per entry of every page, in
    order, dropping none; where an entry has no video id, or no title, that
    component of its pair is [None].  Such a pair does not enter a snapshot:
    the builder raises a validation error on it and the run ends with that
    error, without a report upload, a download or an audio upload. *)
Theorem reader_keeps_incomplete_entries_builder_rejects_them env settings resps fuel :
  serves env (YOUTUBE_PLAYLIST_ID settings) 0 None resps ->
  List.length resps <= fuel ->
  let pairs := map entry_pair (page_entries resps) in
  outcome_of (YoutubePlaylist_list env fuel (YOUTUBE_PLAYLIST_ID settings)) = Ret pairs /\
  List.length pairs = List.length (page_entries resps) /\
  (forall k item, nth_error (page_entries resps) k = Some item ->
     nth_error pairs k = Some (item_video item, item_title item) /\
     (contentDetails item = None -> item_video item = None) /\
     (snippet item = None -> item_title item = None) /\
     (forall details, contentDetails item = Some details ->
                      item_video item = videoId details) /\
     (forall s, snippet item = Some s -> item_title item = snippet_title s)) /\
  (Exists (fun item => item_video item = None \/ item_title item = None)
          (page_entries resps) ->
   exists t e,
     build_snapshot env settings fuel = (t, Raise e) /\
     exc_class e = "ValidationError" /\
     (discovery_build env "youtube" "v3" = None ->
      entrypoint env settings fuel = ((started ++ t)%list, Raise e) /\
      report_calls (started ++ t) = [] /\
      downloads (started ++ t) = [] /\
      audio_calls (started ++ t) = [])).
Proof.
  intros Hs Hfuel pairs.
  pose proof (reader_yields_entries env _ resps fuel Hs Hfuel) as Hl.
  split; [rewrite Hl; reflexivity|].
  split; [apply length_map|]. split.
  - intros k item Hk. split; [|repeat split].
    + subst pairs. rewrite nth_error_map, Hk. reflexivity.
    + unfold item_video. intros ->. reflexivity.
    + unfold item_title. intros ->. reflexivity.
    + unfold item_video. intros details ->. reflexivity.
    + unfold item_title. intros s ->. reflexivity.
  - intros Hbad.
    assert (Hpairs : Exists (fun pair => ~ complete pair) pairs).
    { subst pairs. apply Exists_exists in Hbad. destruct Hbad as (item & Hin & Hitem).
      apply Exists_exists. exists (entry_pair item).
      split; [apply in_map, Hin|apply incomplete_entry_pair, Hitem]. }
    destruct (fold_snapshot_incomplete pairs Playlist_init Hpairs) as (e & Hfold & He).
    pose proof (build_snapshot_of_list env settings fuel _ _ Hl) as Hb.
    fold pairs in Hb. rewrite Hfold in Hb. destruct Hb as (t & Hb & _).
    exists t, e. split; [exact Hb|]. split; [exact He|].
    intros Hy. rewrite entrypoint_stages, Hy, Hb.
    pose proof (build_snapshot_trace_pages env settings fuel) as Hpages.
    rewrite Hb in Hpages. cbn [trace_of fst] in Hpages. apply pages_only in Hpages.
    destruct Hpages as (_ & Hr & Ha & _ & Hd & _).
    rewrite report_calls_app, downloads_app, audio_calls_app, Hr, Ha, Hd.
    repeat split.
Qed.

Lemma reader_keeps_incomplete_entries_builder_rejects_them_witness :
  outcome_of (YoutubePlaylist_list env_no_title 1 "PL_x") = Ret [(Some "v1", None)] /\
  exists t e,
    entrypoint env_no_title sample_settings 1 = ((started ++ t)%list, Raise e) /\
    exc_class e = "ValidationError".
Proof.
  assert (Hs : serves env_no_title (YOUTUBE_PLAYLIST_ID sample_settings) 0 None
                 [mkListResponse
                    (Some [mkPageItem (Some (mkContentDetails (Some "v1")))
                                      (Some (mkSnippet None))]) None]).
  { split; reflexivity. }
  destruct (reader_keeps_incomplete_entries_builder_rejects_them
              env_no_title sample_settings _ 1 Hs (le_n 1)) as (Hl & _ & _ & Hbad).
  split; [exact Hl|].
  destruct Hbad as (t & e & _ & He & Hrun).
  { constructor. right. reflexivity. }
  exists t, e. split; [apply Hrun; reflexivity|exact He].
Defined.

(** ** Paging *)

Lemma requests_for_length playlist_id resps :
  resps <> [] ->
  List.length (requests_for playlist_id resps) = List.length resps.
Proof.
  intros H. unfold requests_for, requests_from. cbn [List.length].
  rewrite length_map. destruct resps as [|r rest]; [congruence|].
  clear H. revert r. induction rest as [|r' rest IH]; intros r; [reflexivity|].
  cbn [removelast List.length] in *. rewrite IH. reflexivity.
Qed.

Lemma serves_tokens env playlist_id resps : forall n page_token,
  serves env playlist_id n page_token resps ->
  forall k r, nth_error resps k = Some r ->
    truthy (nextPageToken r) = negb (S k =? List.length resps)%nat /\
    (S k < List.length resps ->
       nth_error (map (fun r => page_request playlist_id (nextPageToken r))
                      (removelast resps)) k
         = Some (page_request playlist_id (nextPageToken r))).
Proof.
  induction resps as [|r0 rest IH]; intros n page_token Hs k r Hk.
  - destruct Hs.
  - cbn [serves] in Hs. destruct Hs as [_ Hrest].
    destruct rest as [|r1 rest].
    + destruct k as [|k]; [|destruct k; discriminate].
      injection Hk as <-. split; [exact Hrest|]. cbn. lia.
    + destruct Hrest as [Htok Hrest]. destruct k as [|k].
      * injection Hk as <-. split; [exact Htok|]. reflexivity.
      * cbn [nth_error] in Hk.
        destruct (IH _ _ Hrest k r Hk) as [H1 H2].
        split; [exact H1|]. intros Hlt.
        change (removelast (r0 :: r1 :: rest)) with (r0 :: removelast (r1 :: rest)).
        cbn [map nth_error]. apply H2. cbn [List.length] in *. lia.
Qed.

(** *** The paging provider serves every entry, on ceil(N / size) pages *)

Lemma firstn_add_split {A} (a b : nat) : forall l : list A,
  firstn (a + b) l = (firstn a l ++ firstn b (skipn a l))%list.
Proof.
  induction a as [|a IH]; intros l; [reflexivity|].
  destruct l as [|x l]; cbn [Nat.add firstn skipn app].
  - rewrite firstn_nil. reflexivity.
  - rewrite IH. reflexivity.
Qed.

Lemma paged_chunks {A} (size : nat) (l : list A) : forall count start,
  flat_map (fun n => firstn size (skipn (size * n) l)) (seq start count) =
    firstn (size * count) (skipn (size * start) l).
Proof.
  induction count as [|count IH]; intros start.
  - rewrite Nat.mul_0_r. reflexivity.
  - cbn [seq flat_map]. rewrite IH.
    rewrite (Nat.mul_succ_r size count), (Nat.add_comm (size * count) size).
    rewrite firstn_add_split, skipn_skipn.
    rewrite (Nat.mul_succ_r size start), (Nat.add_comm (size * start) size).
    reflexivity.
Qed.

Lemma page_count_covers size N : 0 < size -> N <= size * page_count size N.
Proof.
  intros Hsize. unfold page_count.
  pose proof (Nat.div_mod_eq (N + (size - 1)) size) as Hdiv.
  pose proof (Nat.mod_upper_bound (N + (size - 1)) size) as Hmod.
  assert (size * ((N + (size - 1)) / size)
            <= size * Nat.max 1 ((N + (size - 1)) / size))
    by (apply Nat.mul_le_mono_l; lia).
  lia.
Qed.

Lemma page_count_tight size N n :
  0 < size -> S n < page_count size N -> size * S n < N.
Proof.
  intros Hsize Hn. unfold page_count in Hn.
  pose proof (Nat.div_mod_eq (N + (size - 1)) size) as Hdiv.
  pose proof (Nat.mod_upper_bound (N + (size - 1)) size) as Hmod.
  assert (size * (S n + 1) <= size * ((N + (size - 1)) / size))
    by (apply Nat.mul_le_mono_l; lia).
  rewrite Nat.mul_add_distr_l, Nat.mul_1_r in H. lia.
Qed.

Lemma paged_entries entries token size :
  0 < size -> page_entries (paged_responses entries token size) = entries.
Proof.
  intros Hsize. unfold page_entries, paged_responses.
  rewrite flat_map_concat_map, map_map, <- flat_map_concat_map.
  cbn [items paged_response].
  rewrite paged_chunks, Nat.mul_0_r. cbn [skipn].
  apply firstn_all2, page_count_covers, Hsize.
Qed.

Lemma truthy_token s : s <> "" -> truthy (Some s) = true.
Proof. destruct s; [congruence|reflexivity]. Qed.

Lemma paged_serves env playlist_id entries token :
  list_execute env = paged_list_execute entries token ->
  (forall n, token n <> "") ->
  serves env playlist_id 0 None (paged_responses entries token 25).
Proof.
  intros Henv Htoken. unfold paged_responses.
  set (N := List.length entries).
  assert (Hgen : forall count start page_token,
            0 < count -> start + count = page_count 25 N ->
            serves env playlist_id start page_token
                   (map (paged_response entries token 25) (seq start count))).
  { induction count as [|count IH]; intros start page_token Hpos Hsum; [lia|].
    cbn [seq map serves]. split; [rewrite Henv; reflexivity|].
    destruct count as [|count].
    - cbn [seq map nextPageToken paged_response]. fold N.
      destruct (Nat.ltb_spec (25 * S start) N) as [Hlt|Hge]; [|reflexivity].
      pose proof (page_count_covers 25 N). lia.
    - change (map _ (seq (S start) (S count)))
        with (paged_response entries token 25 (S start)
                :: map (paged_response entries token 25) (seq (S (S start)) count)).
      change (paged_response entries token 25 (S start)
                :: map (paged_response entries token 25) (seq (S (S start)) count))
        with (map (paged_response entries token 25) (seq (S start) (S count))).
      split.
      + cbn [nextPageToken paged_response]. fold N.
        destruct (Nat.ltb_spec (25 * S start) N) as [Hlt|Hge].
        * apply truthy_token, Htoken.
        * pose proof (page_count_tight 25 N start). lia.
      + apply IH; lia. }
  apply Hgen; unfold page_count; lia.
Qed.

(** On the paging provider the reader yields every entry of the playlist,
    with one request per page: ceil(N / 25) of them, one for an empty
    playlist. *)
Lemma reader_on_paged_provider env playlist_id entries token fuel :
  list_execute env = paged_list_execute entries token ->
  (forall n, token n <> "") ->
  page_count 25 (List.length entries) <= fuel ->
  exists requests,
    YoutubePlaylist_list env fuel playlist_id =
      (map ListPage requests, Ret (map entry_pair entries)) /\
    List.length requests = Nat.max 1 ((List.length entries + 24) / 25).
Proof.
  intros Henv Htoken Hfuel.
  pose proof (paged_serves env playlist_id entries token Henv Htoken) as Hs.
  assert (Hlen : List.length (paged_responses entries token 25)
                 = page_count 25 (List.length entries)).
  { unfold paged_responses. rewrite length_map, length_seq. reflexivity. }
  exists (requests_for playlist_id (paged_responses entries token 25)). split.
  - rewrite (reader_yields_entries env playlist_id _ fuel Hs) by lia.
    rewrite paged_entries by lia. reflexivity.
  - rewrite requests_for_length, Hlen; [reflexivity|].
    intros Hnil. rewrite Hnil in Hs. destruct Hs.
Qed.

Lemma entry_pair_fields l : Forall2 yields_fields l (map entry_pair l).
Proof.
  induction l as [|item rest IH]; constructor; [|exact IH].
  unfold yields_fields, entry_pair, item_video, item_title. cbn [fst snd].
  destruct (contentDetails item), (snippet item); split; reflexivity.
Qed.

(** C5: when the provider serves the playlist's N entries on pages
    linked by continuation tokens, the reader yields exactly N pairs, in page
    order, each the video id and the title of its entry; it makes one request
    per page, each for at most 25 entries of the playlist, the first without
    a page token and each later one with the token of the page before it; and
    the loop ends with the first page that carries no token (with fewer turns
    than pages it is still running, and a turn whose page carries a token is
    followed by another request). *)
Theorem reader_follows_pages env playlist_id resps fuel :
  serves env playlist_id 0 None resps ->
  let N := List.length (page_entries resps) in
  let run := YoutubePlaylist_list env fuel playlist_id in
  let requests := requests_for playlist_id resps in
  (List.length resps <= fuel ->
     exists pairs,
       run = (map ListPage requests, Ret pairs) /\
       pairs = map entry_pair (page_entries resps) /\
       List.length pairs = N /\
       Forall2 yields_fields (page_entries resps) pairs) /\
  (fuel < List.length resps -> outcome_of run = OutOfFuel) /\
  List.length requests = List.length resps /\
  Forall (fun req => maxResults req = 25 /\ playlistId req = playlist_id /\
                     part req = "snippet,contentDetails") requests /\
  (exists later, requests = page_request playlist_id None :: later) /\
  (exists first later, requests = first :: later /\ pageToken first = None) /\
  (forall k r, nth_error resps k = Some r ->
     (truthy (nextPageToken r) = false <-> S k = List.length resps) /\
     (S k < List.length resps ->
        nth_error requests (S k) = Some (page_request playlist_id (nextPageToken r)) /\
        exists req, nth_error requests (S k) = Some req /\
                    pageToken req = nextPageToken r)) /\
  (forall turns n page_token acc r,
     list_execute env n (page_request playlist_id page_token) = inr r ->
     YoutubePlaylist_from env (S turns) n playlist_id page_token collect acc =
       if truthy (nextPageToken r)
       then
         let rest := YoutubePlaylist_from env turns (S n) playlist_id (nextPageToken r)
                       collect (acc ++ page_pairs r)%list in
         (ListPage (page_request playlist_id page_token) :: trace_of rest,
          outcome_of rest)
       else ([ListPage (page_request playlist_id page_token)],
             Ret (acc ++ page_pairs r)%list)).
Proof.
  intros Hs N run requests. subst N run requests.
  split; [|split; [|split; [|split; [|split; [|split; [|split]]]]]].
  - intros Hfuel. eexists. split; [apply reader_yields_entries; assumption|].
    split; [reflexivity|]. split; [apply length_map|apply entry_pair_fields].
  - intros Hfuel. unfold YoutubePlaylist_list, YoutubePlaylist.
    apply (reader_still_running env playlist_id collect collect_step collect_body_step
             resps fuel 0 None [] ([] ++ flat_map page_pairs resps)%list Hs Hfuel).
    apply fold_collect.
  - apply requests_for_length. intros ->. destruct Hs.
  - unfold requests_for, requests_from. constructor; [repeat split|].
    apply Forall_map, Forall_forall. intros r _. repeat split.
  - eexists. reflexivity.
  - eexists _, _. split; reflexivity.
  - intros k r Hk. destruct (serves_tokens _ _ _ _ _ Hs k r Hk) as [Htok Hreq].
    split.
    + rewrite Htok.
      destruct (Nat.eqb_spec (S k) (List.length resps)); cbn; split; congruence.
    + intros Hlt. split; [exact (Hreq Hlt)|].
      eexists. split; [exact (Hreq Hlt)|reflexivity].
  - intros turns n page_token acc r Hexec.
    rewrite (reader_turn env playlist_id collect collect_step collect_body_step).
    cbv zeta. rewrite Hexec, fold_collect. reflexivity.
Qed.

Lemma reader_follows_pages_witness :
  exists pairs,
    YoutubePlaylist_list env_two_pages 2 "PL_x" =
      ([ListPage (mkListRequest "snippet,contentDetails" 25 "PL_x" None);
        ListPage (mkListRequest "snippet,contentDetails" 25 "PL_x" (Some "page1"))],
       Ret pairs) /\
    pairs = map (fun n => (Some ("v" ++ decimal n), Some ("Song " ++ decimal n)))
                (seq 0 26) /\
    nth_error pairs 25 = Some (Some "v25", Some "Song 25") /\
    List.length pairs = 26 /\
    outcome_of (YoutubePlaylist_list env_two_pages 1 "PL_x") = OutOfFuel.
Proof.
  assert (Hs : serves env_two_pages "PL_x" 0 None
                 (paged_responses songs_26 page_token_name 25)).
  { apply paged_serves; [reflexivity|]. intros n. discriminate. }
  destruct (reader_follows_pages env_two_pages "PL_x" _ 2 Hs) as (Hrun & _).
  destruct (Hrun (le_n 2)) as (pairs & Hp & Heq & Hlen & _).
  destruct (reader_follows_pages env_two_pages "PL_x" _ 1 Hs) as (_ & Hshort & _).
  exists pairs. split; [exact Hp|].
  split; [rewrite Heq; reflexivity|].
  split; [rewrite Heq; reflexivity|].
  split; [exact Hlen|].
  apply Hshort. apply le_n.
Defined.

(** ** The snapshot document *)

Lemma PlaylistItem_roundtrip item :
  PlaylistItem_parse (PlaylistItem_dict item) = Some item.
Proof. destruct item as [v t]. reflexivity. Qed.

Lemma parse_all_roundtrip l : parse_all (map PlaylistItem_dict l) = Some l.
Proof.
  induction l as [|item rest IH]; [reflexivity|].
  cbn [map parse_all]. rewrite PlaylistItem_roundtrip, IH. reflexivity.
Qed.

(** C7: reading back the document written for a snapshot gives the
    snapshot again, so its (video id, title) pairs come back unchanged and in
    the same order. *)
Theorem snapshot_document_roundtrip playlist :
  Playlist_parse (Playlist_json playlist) = Some playlist /\
  option_map (fun parsed => map item_pair (playlist_items parsed))
             (Playlist_parse (Playlist_json playlist))
    = Some (map item_pair (playlist_items playlist)).
Proof.
  assert (H : Playlist_parse (Playlist_json playlist) = Some playlist).
  { destruct playlist as [l n]. unfold Playlist_json, Playlist_parse.
    cbn [playlist_items playlist_name].
    change (dict_get "items" _) with (Some (JArray (map PlaylistItem_dict l))).
    cbv beta iota. rewrite parse_all_roundtrip. destruct n as [s|]; reflexivity. }
  split; [exact H|]. rewrite H. reflexivity.
Qed.

(** * Further properties of the run *)

(** ** The track loop, turn by turn *)

Lemma sleeps_app t1 t2 : sleeps (t1 ++ t2) = (sleeps t1 ++ sleeps t2)%list.
Proof. apply flat_map_app. Qed.

Lemma throttle_sign (delay : Q) :
  ((30 < delay)%Q -> (throttle delay < 0)%Q) /\
  ((delay <= 30)%Q -> (throttle delay == 0)%Q).
Proof.
  split; intros H; destruct (throttle_cases delay) as [[? ->]|[? ->]]; lra.
Qed.

Section Turns.

Variable env : Env.
Variable settings : Settings.

Lemma turn_shows i item :
  let t := trace_of (transfer_track env settings i item) in
  downloads t = [watch_url item] /\
  audio_calls t = turn_calls env settings i item /\
  audio_objects t = turn_objects env settings i item /\
  warnings t = turn_warnings env settings i item /\
  Forall (fun secs => (secs == 0)%Q) (sleeps t).
Proof.
  cbv zeta. unfold turn_objects, turn_calls, turn_warnings.
  destruct (stream_to_buffer env i (watch_url item)) as [e|buffer] eqn:H1.
  - rewrite (transfer_track_download_fails _ _ _ _ _ H1). repeat split. constructor.
  - cbn [filter].
    destruct (create_execute env (AtTrack i) (audio_request settings item buffer))
      as [e|] eqn:H2.
    + rewrite (transfer_track_upload_fails _ _ _ _ _ _ H1 H2). repeat split. constructor.
    + rewrite (transfer_track_uploaded _ _ _ _ _ H1 H2).
      destruct (throttle_sign (elapsed env i)) as [Hslow Hfast].
      destruct (Qlt_le_dec 30 (elapsed env i)) as [Hd|Hd].
      * rewrite (sleep_negative _ (Hslow Hd)). repeat split. constructor.
      * rewrite sleep_zero_or_more by (rewrite (Hfast Hd); lra).
        repeat split. constructor; [exact (Hfast Hd)|constructor].
Qed.

Lemma loop_shows l : forall i,
  let t := trace_of (transfer_tracks env settings i l) in
  downloads t = map watch_url l /\
  audio_calls t = over_turns (turn_calls env settings) i l /\
  audio_objects t = over_turns (turn_objects env settings) i l /\
  warnings t = over_turns (turn_warnings env settings) i l /\
  Forall (fun secs => (secs == 0)%Q) (sleeps t).
Proof.
  induction l as [|item rest IH]; intros i; cbv zeta.
  - repeat split. constructor.
  - rewrite transfer_tracks_cons. cbn [trace_of fst].
    rewrite downloads_app, audio_calls_app, audio_objects_app, warnings_app, sleeps_app.
    destruct (turn_shows i item) as (-> & -> & -> & -> & Hs).
    destruct (IH (S i)) as (-> & -> & -> & -> & Hs').
    repeat split. apply Forall_app. split; assumption.
Qed.

(** A run whose report upload returned: the track loop follows, and the
    run returns. *)
Lemma run_after_report fuel t playlist :
  discovery_build env "youtube" "v3" = None ->
  build_snapshot env settings fuel = (t, Ret playlist) ->
  discovery_build env "drive" "v3" = None ->
  create_execute env AtReport (report_request env settings playlist) = None ->
  entrypoint env settings fuel =
    ((started ++ t ++ publishing
        ++ [Create AtReport (report_request env settings playlist) true]
        ++ trace_of (transfer_tracks env settings 0 (playlist_items playlist)))%list,
     Ret tt).
Proof.
  intros Hy Hs Hd Hc. rewrite entrypoint_stages, Hy, Hs, Hd. cbv zeta.
  rewrite Hc. reflexivity.
Qed.

Lemma before_the_loop fuel t o :
  build_snapshot env settings fuel = (t, o) ->
  forall report,
  let before := (started ++ t ++ publishing ++ report)%list in
  (forall ev, In ev report -> exists req created, ev = Create AtReport req created) ->
  downloads before = [] /\ audio_calls before = [] /\ audio_objects before = [] /\
  warnings before = [] /\ sleeps before = [].
Proof.
  intros Hs report before Hreport. subst before.
  pose proof (build_snapshot_trace_pages env settings fuel) as Hpages.
  rewrite Hs in Hpages. cbn [trace_of fst] in Hpages.
  assert (Ht : downloads t = [] /\ audio_calls t = [] /\ audio_objects t = [] /\
               warnings t = [] /\ sleeps t = []).
  { clear Hs. induction t as [|ev t' IH]; [repeat split|].
    destruct (Hpages ev (or_introl eq_refl)) as [req ->].
    apply IH. intros ev' Hin. apply Hpages. right. exact Hin. }
  assert (Hr : downloads report = [] /\ audio_calls report = [] /\
               audio_objects report = [] /\ warnings report = [] /\ sleeps report = []).
  { induction report as [|ev report' IH]; [repeat split|].
    destruct (Hreport ev (or_introl eq_refl)) as (req & created & ->).
    apply IH. intros ev' Hin. apply Hreport. right. exact Hin. }
  destruct Ht as (Ht1 & Ht2 & Ht3 & Ht4 & Ht5).
  destruct Hr as (Hr1 & Hr2 & Hr3 & Hr4 & Hr5).
  rewrite !downloads_app, !audio_calls_app, !audio_objects_app, !warnings_app,
    !sleeps_app, Ht1, Ht2, Ht3, Ht4, Ht5, Hr1, Hr2, Hr3, Hr4, Hr5.
  repeat split.
Qed.

End Turns.

(** ** After the report: what the track loop shows in a run *)

Lemma run_shows_loop env settings fuel t playlist :
  discovery_build env "youtube" "v3" = None ->
  build_snapshot env settings fuel = (t, Ret playlist) ->
  discovery_build env "drive" "v3" = None ->
  create_execute env AtReport (report_request env settings playlist) = None ->
  let run := trace_of (entrypoint env settings fuel) in
  let loop := trace_of (transfer_tracks env settings 0 (playlist_items playlist)) in
  audio_calls run = audio_calls loop /\
  audio_objects run = audio_objects loop /\
  warnings run = warnings loop /\
  sleeps run = sleeps loop.
Proof.
  intros Hy Hs Hd Hc run loop. subst run loop.
  rewrite (run_after_report env settings fuel t playlist Hy Hs Hd Hc).
  cbn [trace_of fst].
  destruct (before_the_loop env settings fuel t _ Hs
              [Create AtReport (report_request env settings playlist) true])
    as (_ & Ha & Ho & Hw & Hz).
  { intros ev [<-|[]]. eauto. }
  rewrite !app_assoc, audio_calls_app, audio_objects_app, warnings_app, sleeps_app.
  rewrite <- !app_assoc, Ha, Ho, Hw, Hz. repeat split.
Qed.

Lemma turn_objects_among_calls env settings l : forall i,
  incl (over_turns (turn_objects env settings) i l)
       (over_turns (turn_calls env settings) i l).
Proof.
  induction l as [|item rest IH]; intros i; [apply incl_refl|].
  cbn [over_turns]. apply incl_app_app; [|apply IH].
  unfold turn_objects. apply incl_filter.
Qed.

Lemma over_turns_length_le {A} (f : nat -> PlaylistItem -> list A) l :
  (forall i item, List.length (f i item) <= 1) ->
  forall i, List.length (over_turns f i l) <= List.length l.
Proof.
  intros H. induction l as [|item rest IH]; intros i; [apply le_n|].
  cbn [over_turns List.length]. rewrite length_app.
  specialize (H i item). specialize (IH (S i)). lia.
Qed.

(** ** The run never pauses *)

Lemma listing_never_sleeps t :
  (forall ev, In ev t -> exists req, ev = ListPage req) -> sleeps t = [].
Proof.
  induction t as [|ev t IH]; intros H; [reflexivity|].
  destruct (H ev (or_introl eq_refl)) as [req ->]. cbn.
  apply IH. intros ev' Hin. apply H. right. exact Hin.
Qed.

(** X4: whatever the providers answer and however long the uploads take,
    every sleep of a run has length zero: the run is never paused between
    uploads. *)
Theorem run_never_pauses env settings fuel :
  Forall (fun secs => (secs == 0)%Q) (sleeps (trace_of (entrypoint env settings fuel))).
Proof.
  rewrite entrypoint_stages.
  destruct (discovery_build env "youtube" "v3"); [constructor|].
  pose proof (build_snapshot_trace_pages env settings fuel) as Hpages.
  destruct (build_snapshot env settings fuel) as [t o].
  cbn [trace_of fst] in Hpages. apply listing_never_sleeps in Hpages.
  destruct o as [playlist|e|].
  - destruct (discovery_build env "drive" "v3").
    { cbn [trace_of fst]. rewrite !sleeps_app, Hpages. constructor. }
    cbv zeta.
    destruct (create_execute env AtReport (report_request env settings playlist)).
    { cbn [trace_of fst]. rewrite !sleeps_app, Hpages. constructor. }
    cbn [trace_of fst]. rewrite !sleeps_app, Hpages. cbn [app sleeps flat_map].
    apply (loop_shows env settings (playlist_items playlist) 0).
  - cbn [trace_of fst]. rewrite sleeps_app, Hpages. constructor.
  - cbn [trace_of fst]. rewrite sleeps_app, Hpages. constructor.
Qed.

(** ** Clients that cannot be built *)

(** X6: a client that cannot be built ends the run with its error.  For
    the YouTube client nothing else has happened by then; the Drive client
    is built only after the listing, so its failure comes after every page
    request of the snapshot and before any upload or download. *)
Theorem client_failure_ends_the_run env settings fuel :
  (forall e, discovery_build env "youtube" "v3" = Some e ->
     entrypoint env settings fuel = ([Build "youtube" "v3"], Raise e)) /\
  (forall e t playlist,
     discovery_build env "youtube" "v3" = None ->
     build_snapshot env settings fuel = (t, Ret playlist) ->
     discovery_build env "drive" "v3" = Some e ->
     let run := entrypoint env settings fuel in
     run = ((started ++ t ++ publishing)%list, Raise e) /\
     page_requests (trace_of run) = page_requests t /\
     report_calls (trace_of run) = [] /\
     downloads (trace_of run) = [] /\
     audio_calls (trace_of run) = []).
Proof.
  split.
  - intros e Hy. rewrite entrypoint_stages, Hy. reflexivity.
  - intros e t playlist Hy Hs Hd run. subst run.
    rewrite entrypoint_stages, Hy, Hs, Hd.
    pose proof (build_snapshot_trace_pages env settings fuel) as Hpages.
    rewrite Hs in Hpages. cbn [trace_of fst] in Hpages. apply pages_only in Hpages.
    destruct Hpages as (_ & Hr & Ha & _ & Hdl & _).
    cbn [trace_of fst].
    rewrite !page_requests_app, !report_calls_app, !downloads_app, !audio_calls_app,
      Hr, Ha, Hdl.
    split; [reflexivity|]. split; [|repeat split].
    cbn. rewrite app_nil_r. reflexivity.
Qed.

Lemma client_failure_ends_the_run_witness :
  entrypoint env_no_drive sample_settings 1 =
    ((started ++ [ListPage (page_request "PL_x" None)] ++ publishing)%list,
     Raise (mkException "DefaultCredentialsError" "bad key")).
Proof.
  destruct (client_failure_ends_the_run env_no_drive sample_settings 1) as [_ H].
  destruct (H _ _ _ eq_refl eq_refl eq_refl) as [Hrun _].
  exact Hrun.
Defined.

(** ** The reader against providers that fail, stall or never finish *)

Lemma page_requests_pages reqs : page_requests (map ListPage reqs) = reqs.
Proof.
  unfold page_requests. induction reqs as [|req rest IH]; [reflexivity|].
  cbn. rewrite IH. reflexivity.
Qed.

Section ReaderEdges.

Variable env : Env.
Variable playlist_id : string.

Context {St : Type}.
Variable body : St -> option string * option string -> M St.
Variable f : St -> option string * option string -> Exception + St.
Hypothesis body_step : forall s pair, body s pair = lift (f s pair).

(** The provider raises after some pages. *)
Lemma reader_fails_after resps : forall fuel n page_token s s' e,
  fails_after env playlist_id n page_token resps e ->
  List.length resps < fuel ->
  fold_result f (flat_map page_pairs resps) s = inr s' ->
  YoutubePlaylist_from env fuel n playlist_id page_token body s =
    (map ListPage (requests_through playlist_id page_token resps), Raise e).
Proof.
  induction resps as [|r rest IH]; intros fuel n page_token s s' e Hf Hfuel Hfold;
    (destruct fuel as [|fuel]; [cbn in Hfuel; lia|]);
    rewrite (reader_turn env playlist_id body f body_step); cbv zeta.
  - cbn [fails_after] in Hf. rewrite Hf. reflexivity.
  - cbn [fails_after] in Hf. destruct Hf as (Hexec & Htok & Hrest).
    rewrite Hexec. cbn [flat_map] in Hfold. rewrite fold_result_app in Hfold.
    destruct (fold_result f (page_pairs r) s) as [e'|s1]; [discriminate|].
    rewrite Htok.
    rewrite (IH fuel (S n) (nextPageToken r) s1 s' e Hrest); [reflexivity| |exact Hfold].
    cbn [List.length] in Hfuel. lia.
Qed.

(** The body raises on a page: the pages after it are not asked for. *)
Lemma reader_stops_at before : forall r after fuel n page_token s s1 e,
  serves env playlist_id n page_token (before ++ r :: after) ->
  List.length before < fuel ->
  fold_result f (flat_map page_pairs before) s = inr s1 ->
  fold_result f (page_pairs r) s1 = inl e ->
  YoutubePlaylist_from env fuel n playlist_id page_token body s =
    (map ListPage (requests_through playlist_id page_token before), Raise e).
Proof.
  induction before as [|b before IH];
    intros r after fuel n page_token s s1 e Hs Hfuel Hfold Hbad;
    (destruct fuel as [|fuel]; [cbn in Hfuel; lia|]);
    rewrite (reader_turn env playlist_id body f body_step); cbv zeta.
  - cbn [app serves] in Hs. destruct Hs as [Hexec _]. rewrite Hexec.
    cbn in Hfold. injection Hfold as ->. rewrite Hbad. reflexivity.
  - cbn [app serves] in Hs. destruct Hs as [Hexec Hrest]. rewrite Hexec.
    cbn [flat_map] in Hfold. rewrite fold_result_app in Hfold.
    destruct (fold_result f (page_pairs b) s) as [e'|s2]; [discriminate|].
    assert (Hnext : truthy (nextPageToken b) = true /\
                    serves env playlist_id (S n) (nextPageToken b)
                           (before ++ r :: after)).
    { destruct (before ++ r :: after)%list eqn:E; [destruct before; discriminate E|].
      exact Hrest. }
    destruct Hnext as [Htok Hserves]. rewrite Htok.
    rewrite (IH r after fuel (S n) (nextPageToken b) s2 s1 e Hserves);
      [reflexivity| |exact Hfold|exact Hbad].
    cbn [List.length] in Hfuel. lia.
Qed.

(** The requests of any run of the reader follow the provider's tokens. *)
Lemma reader_chained fuel : forall n page_token s,
  let reqs := page_requests
                (trace_of (YoutubePlaylist_from env fuel n playlist_id page_token body s)) in
  chained env playlist_id n page_token reqs /\ List.length reqs <= fuel.
Proof.
  induction fuel as [|fuel IH]; intros n page_token s; cbv zeta.
  - split; [exact I|apply le_n].
  - rewrite (reader_turn env playlist_id body f body_step). cbv zeta.
    destruct (list_execute env n (page_request playlist_id page_token))
      as [e|r] eqn:Hexec.
    { cbn. split; [repeat split|lia]. }
    destruct (fold_result f (page_pairs r) s) as [e|s'].
    { cbn. split; [repeat split|lia]. }
    destruct (truthy (nextPageToken r)) eqn:Htok.
    + destruct (IH (S n) (nextPageToken r) s') as [Hc Hl].
      cbn [trace_of fst page_requests flat_map app List.length chained].
      fold (page_requests
              (trace_of (YoutubePlaylist_from env fuel (S n) playlist_id
                           (nextPageToken r) body s'))).
      split; [|lia]. split; [repeat split|].
      destruct (page_requests _) as [|req rest]; [exact I|].
      exists r. auto.
    + cbn. split; [repeat split|lia].
Qed.

End ReaderEdges.

(** X7: when the listing provider raises on a page request, after any
    number of pages, that exception ends the run at that request: the pairs
    of the pages already read are dropped with it, and no report is
    uploaded, nothing is downloaded and no audio is uploaded. *)
Theorem listing_failure_discards_the_run env settings resps e fuel :
  fails_after env (YOUTUBE_PLAYLIST_ID settings) 0 None resps e ->
  List.length resps < fuel ->
  Forall complete (flat_map page_pairs resps) ->
  discovery_build env "youtube" "v3" = None ->
  let requests := requests_through (YOUTUBE_PLAYLIST_ID settings) None resps in
  let run := entrypoint env settings fuel in
  YoutubePlaylist_list env fuel (YOUTUBE_PLAYLIST_ID settings)
    = (map ListPage requests, Raise e) /\
  run = ((started ++ map ListPage requests)%list, Raise e) /\
  List.length requests = S (List.length resps) /\
  report_calls (trace_of run) = [] /\
  downloads (trace_of run) = [] /\
  audio_calls (trace_of run) = [].
Proof.
  intros Hf Hfuel Hc Hy requests run. subst requests run.
  destruct (fold_snapshot_complete _ Playlist_init Hc) as [playlist Hfold].
  pose proof (reader_fails_after env _ snapshot_body snapshot_step snapshot_body_step
                resps fuel 0 None _ _ e Hf Hfuel Hfold) as Hb.
  pose proof (reader_fails_after env _ collect collect_step collect_body_step
                resps fuel 0 None [] _ e Hf Hfuel (fold_collect _ _)) as Hl.
  split; [exact Hl|].
  assert (Hrun : entrypoint env settings fuel =
                   ((started ++ map ListPage
                       (requests_through (YOUTUBE_PLAYLIST_ID settings) None resps))%list,
                    Raise e)).
  { rewrite entrypoint_stages, Hy. unfold build_snapshot, YoutubePlaylist.
    rewrite Hb. reflexivity. }
  rewrite Hrun. cbn [trace_of fst].
  split; [reflexivity|]. split; [cbn; rewrite length_map; reflexivity|].
  destruct (pages_only (map ListPage
              (requests_through (YOUTUBE_PLAYLIST_ID settings) None resps)))
    as (_ & Hr & Ha & _ & Hd & _).
  { intros ev Hin. apply in_map_iff in Hin. destruct Hin as (req & <- & _). eauto. }
  rewrite report_calls_app, downloads_app, audio_calls_app, Hr, Ha, Hd.
  repeat split.
Qed.

Lemma listing_failure_discards_the_run_witness :
  entrypoint env_second_page_fails sample_settings 2 =
    ((started ++ [ListPage (page_request "PL_x" None);
                  ListPage (page_request "PL_x" (Some "page1"))])%list,
     Raise (ProviderError "backend error")).
Proof.
  assert (Hf : fails_after env_second_page_fails (YOUTUBE_PLAYLIST_ID sample_settings)
                 0 None [mkListResponse (Some two_songs) (Some "page1")]
                 (ProviderError "backend error")).
  { split; [reflexivity|]. split; reflexivity. }
  assert (Hc : Forall complete
                 (flat_map page_pairs [mkListResponse (Some two_songs) (Some "page1")])).
  { repeat constructor; discriminate. }
  destruct (listing_failure_discards_the_run env_second_page_fails sample_settings
              _ _ 2 Hf (le_n 2) Hc eq_refl) as (_ & Hrun & _).
  exact Hrun.
Defined.

(** X8: the page loop has no bound of its own.  Against a provider whose
    every answer carries a token, the reader keeps asking for as long as it
    is run, one request per turn, and the run gets neither to its report nor
    to its end. *)
Theorem endless_tokens_never_finish env settings :
  (forall n req, exists r,
      list_execute env n req = inr r /\ truthy (nextPageToken r) = true) ->
  forall fuel,
    let listing := YoutubePlaylist_list env fuel (YOUTUBE_PLAYLIST_ID settings) in
    outcome_of listing = OutOfFuel /\
    List.length (page_requests (trace_of listing)) = fuel /\
    outcome_of (entrypoint env settings fuel) <> Ret tt /\
    report_calls (trace_of (entrypoint env settings fuel)) = [].
Proof.
  intros Hendless fuel listing.
  assert (Hlist : forall fuel n page_token acc,
            let m := YoutubePlaylist_from env fuel n (YOUTUBE_PLAYLIST_ID settings)
                       page_token collect acc in
            outcome_of m = OutOfFuel /\ List.length (page_requests (trace_of m)) = fuel).
  { clear fuel listing. induction fuel as [|fuel IH]; intros n page_token acc; cbv zeta.
    - split; reflexivity.
    - rewrite (reader_turn env _ collect collect_step collect_body_step). cbv zeta.
      destruct (Hendless n (page_request (YOUTUBE_PLAYLIST_ID settings) page_token))
        as (r & -> & ->).
      rewrite fold_collect.
      destruct (IH (S n) (nextPageToken r) (acc ++ page_pairs r)%list) as [Ho Hl].
      split; [exact Ho|]. cbn [trace_of fst]. unfold page_requests in *.
      cbn [flat_map app List.length]. rewrite Hl. reflexivity. }
  destruct (Hlist fuel 0 None []) as [Ho Hl].
  split; [exact Ho|]. split; [exact Hl|].
  assert (Hsnap : forall t playlist, build_snapshot env settings fuel <> (t, Ret playlist)).
  { intros t playlist Hs.
    destruct (reader_unfold env _ snapshot_body snapshot_step snapshot_body_step
                _ _ _ _ _ _ [] Hs) as (pairs & Hl' & _).
    unfold listing, YoutubePlaylist_list, YoutubePlaylist in Ho.
    rewrite Hl' in Ho. discriminate. }
  rewrite entrypoint_stages.
  destruct (discovery_build env "youtube" "v3"); [split; [discriminate|reflexivity]|].
  pose proof (build_snapshot_trace_pages env settings fuel) as Hpages.
  destruct (build_snapshot env settings fuel) as [t [playlist|e|]] eqn:Hs.
  - exfalso. apply (Hsnap t playlist). reflexivity.
  - cbn [trace_of fst] in Hpages. apply pages_only in Hpages.
    destruct Hpages as (_ & Hr & _).
    split; [discriminate|]. cbn [trace_of fst]. rewrite report_calls_app, Hr. reflexivity.
  - cbn [trace_of fst] in Hpages. apply pages_only in Hpages.
    destruct Hpages as (_ & Hr & _).
    split; [discriminate|]. cbn [trace_of fst]. rewrite report_calls_app, Hr. reflexivity.
Qed.

Lemma endless_tokens_never_finish_witness :
  outcome_of (YoutubePlaylist_list env_endless 40 "PL_x") = OutOfFuel /\
  List.length (page_requests (trace_of (YoutubePlaylist_list env_endless 40 "PL_x"))) = 40.
Proof.
  assert (H : forall n req, exists r,
             list_execute env_endless n req = inr r /\ truthy (nextPageToken r) = true).
  { intros n req. eexists. split; reflexivity. }
  destruct (endless_tokens_never_finish env_endless sample_settings H 40)
    as (Ho & Hl & _).
  split; [exact Ho|exact Hl].
Defined.

(** X9: the builder reads the playlist lazily.  When a page holds an
    entry without a video id or without a title, the validation error is
    raised while that page is being consumed: the pages after it are never
    requested, although the listing alone would have gone through all of
    them. *)
Theorem builder_stops_at_first_incomplete_page env settings before r after fuel :
  serves env (YOUTUBE_PLAYLIST_ID settings) 0 None (before ++ r :: after) ->
  List.length (before ++ r :: after) <= fuel ->
  Forall complete (flat_map page_pairs before) ->
  Exists (fun pair => ~ complete pair) (page_pairs r) ->
  exists e,
    build_snapshot env settings fuel =
      (map ListPage (requests_through (YOUTUBE_PLAYLIST_ID settings) None before),
       Raise e) /\
    exc_class e = "ValidationError" /\
    List.length (page_requests (trace_of (build_snapshot env settings fuel)))
      = S (List.length before) /\
    List.length (page_requests
                   (trace_of (YoutubePlaylist_list env fuel (YOUTUBE_PLAYLIST_ID settings))))
      = S (List.length before) + List.length after.
Proof.
  intros Hs Hfuel Hc Hbad.
  destruct (fold_snapshot_complete _ Playlist_init Hc) as [s1 Hfold].
  destruct (fold_snapshot_incomplete _ s1 Hbad) as (e & Hr & He).
  assert (Hb : build_snapshot env settings fuel =
                 (map ListPage (requests_through (YOUTUBE_PLAYLIST_ID settings) None before),
                  Raise e)).
  { apply (reader_stops_at env _ snapshot_body snapshot_step snapshot_body_step
             before r after fuel 0 None _ s1 e Hs); [|exact Hfold|exact Hr].
    rewrite length_app in Hfuel. cbn [List.length] in Hfuel. lia. }
  exists e. split; [exact Hb|]. split; [exact He|]. split.
  - rewrite Hb. cbn [trace_of fst]. rewrite page_requests_pages.
    cbn. rewrite length_map. reflexivity.
  - rewrite (reader_yields_entries env _ _ fuel Hs Hfuel). cbn [trace_of fst].
    rewrite page_requests_pages, requests_for_length.
    + rewrite length_app. cbn [List.length]. lia.
    + destruct before; discriminate.
Qed.

Lemma builder_stops_at_first_incomplete_page_witness :
  List.length (page_requests
                 (trace_of (build_snapshot env_second_incomplete sample_settings 3))) = 2 /\
  List.length (page_requests
                 (trace_of (YoutubePlaylist_list env_second_incomplete 3 "PL_x"))) = 3.
Proof.
  assert (Hs : serves env_second_incomplete (YOUTUBE_PLAYLIST_ID sample_settings) 0 None
                 ([mkListResponse (Some two_songs) (Some "page1")]
                    ++ mkListResponse
                         (Some [mkPageItem (Some (mkContentDetails (Some "v3")))
                                           (Some (mkSnippet None))])
                         (Some "page2")
                    :: [mkListResponse (Some [entry "v4" "Song D"]) None])%list).
  { repeat split. }
  destruct (builder_stops_at_first_incomplete_page env_second_incomplete sample_settings
              _ _ _ 3 Hs (le_n 3)) as (e & _ & _ & Hb & Hl).
  - repeat constructor; discriminate.
  - constructor. intros [_ Ht]. apply Ht. reflexivity.
  - split; [exact Hb|exact Hl].
Defined.

(** ** The page requests of any run *)

Lemma transfer_tracks_no_pages env settings l : forall i,
  page_requests (trace_of (transfer_tracks env settings i l)) = [].
Proof.
  induction l as [|item rest IH]; intros i; [reflexivity|].
  rewrite transfer_tracks_cons. cbn [trace_of fst].
  rewrite page_requests_app, IH, app_nil_r.
  destruct (stream_to_buffer env i (watch_url item)) as [e|buffer] eqn:H1.
  - rewrite (transfer_track_download_fails _ _ _ _ _ H1). reflexivity.
  - destruct (create_execute env (AtTrack i) (audio_request settings item buffer))
      as [e|] eqn:H2.
    + rewrite (transfer_track_upload_fails _ _ _ _ _ _ H1 H2). reflexivity.
    + rewrite (transfer_track_uploaded _ _ _ _ _ H1 H2). unfold sleep.
      destruct (throttle (elapsed env i) ?= 0)%Q; reflexivity.
Qed.

Lemma chained_shape env playlist_id reqs : forall n page_token,
  chained env playlist_id n page_token reqs ->
  Forall (fun req => maxResults req = 25 /\ playlistId req = playlist_id /\
                     part req = "snippet,contentDetails") reqs /\
  (forall first, nth_error reqs 0 = Some first -> pageToken first = page_token) /\
  (forall k req, nth_error reqs (S k) = Some req ->
     exists prev r,
       nth_error reqs k = Some prev /\
       list_execute env (n + k) prev = inr r /\
       truthy (nextPageToken r) = true /\
       pageToken req = nextPageToken r).
Proof.
  induction reqs as [|req0 rest IH]; intros n page_token Hc.
  - split; [constructor|]. split; [discriminate|]. intros k req Hk. discriminate.
  - cbn [chained] in Hc. destruct Hc as [(Hpart & Hmax & Hpid & Htok) Hrest].
    destruct rest as [|req1 rest].
    + split; [repeat constructor; assumption|]. split.
      * intros first Hf. injection Hf as <-. exact Htok.
      * intros [|k] req Hk; discriminate.
    + destruct Hrest as (r & Hexec & Htruthy & Hchain).
      destruct (IH _ _ Hchain) as (Hall & Hfirst & Hlater).
      split; [constructor; [auto|exact Hall]|]. split.
      * intros first Hf. injection Hf as <-. exact Htok.
      * intros [|k] req Hk.
        -- exists req0, r. rewrite Nat.add_0_r.
           split; [reflexivity|]. split; [exact Hexec|]. split; [exact Htruthy|].
           apply Hfirst. exact Hk.
        -- destruct (Hlater k req Hk) as (prev & r' & Hprev & Hexec' & Ht' & Hreq).
           exists prev, r'. split; [exact Hprev|].
           replace (n + S k) with (S n + k) by lia. auto.
Qed.

(** X10: whatever the provider answers, the page requests of a run all ask
    for at most 25 entries of the configured playlist with the same parts;
    the first carries no page token, and each later one carries the token of
    the answer to the request before it, an answer that did carry one; a run
    of n turns makes at most n of them. *)
Theorem page_requests_follow_the_tokens env settings fuel :
  let requests := page_requests (trace_of (entrypoint env settings fuel)) in
  List.length requests <= fuel /\
  Forall (fun req => maxResults req = 25 /\
                     playlistId req = YOUTUBE_PLAYLIST_ID settings /\
                     part req = "snippet,contentDetails") requests /\
  (forall first, nth_error requests 0 = Some first -> pageToken first = None) /\
  (forall k req, nth_error requests (S k) = Some req ->
     exists prev r,
       nth_error requests k = Some prev /\
       list_execute env k prev = inr r /\
       truthy (nextPageToken r) = true /\
       pageToken req = nextPageToken r).
Proof.
  cbv zeta.
  assert (Hrun : page_requests (trace_of (entrypoint env settings fuel)) = [] \/
                 page_requests (trace_of (entrypoint env settings fuel)) =
                   page_requests (trace_of (build_snapshot env settings fuel))).
  { rewrite entrypoint_stages.
    destruct (discovery_build env "youtube" "v3"); [left; reflexivity|]. right.
    destruct (build_snapshot env settings fuel) as [t [playlist|e|]];
      cbn [trace_of fst]; try (rewrite page_requests_app; reflexivity).
    destruct (discovery_build env "drive" "v3").
    { cbn [trace_of fst]. rewrite !page_requests_app. cbn. apply app_nil_r. }
    cbv zeta.
    destruct (create_execute env AtReport (report_request env settings playlist));
      cbn [trace_of fst]; rewrite !page_requests_app;
      try rewrite transfer_tracks_no_pages; cbn; apply app_nil_r. }
  destruct Hrun as [-> | ->].
  { split; [apply Nat.le_0_l|]. split; [constructor|].
    split; [discriminate|]. intros k req Hk. discriminate. }
  destruct (reader_chained env (YOUTUBE_PLAYLIST_ID settings)
              snapshot_body snapshot_step snapshot_body_step fuel 0 None Playlist_init)
    as [Hc Hl].
  fold (YoutubePlaylist env fuel (YOUTUBE_PLAYLIST_ID settings) snapshot_body Playlist_init)
    in Hc, Hl.
  fold (build_snapshot env settings fuel) in Hc, Hl.
  split; [exact Hl|].
  apply (chained_shape env (YOUTUBE_PLAYLIST_ID settings) _ 0 None Hc).
Qed.

Lemma page_requests_follow_the_tokens_witness :
  page_requests (trace_of (entrypoint env_two_pages sample_settings 2)) =
    [mkListRequest "snippet,contentDetails" 25 "PL_x" None;
     mkListRequest "snippet,contentDetails" 25 "PL_x" (Some "page1")] /\
  exists req r,
    nth_error (page_requests (trace_of (entrypoint env_two_pages sample_settings 2))) 1
      = Some req /\
    nextPageToken r = Some "page1" /\
    pageToken req = nextPageToken r.
Proof.
  split; [reflexivity|].
  destruct (page_requests_follow_the_tokens env_two_pages sample_settings 2)
    as (_ & _ & _ & Hlater).
  destruct (Hlater 0 (mkListRequest "snippet,contentDetails" 25 "PL_x" (Some "page1"))
              eq_refl) as (prev & r & Hprev & Hexec & _ & Htok).
  exists (mkListRequest "snippet,contentDetails" 25 "PL_x" (Some "page1")), r.
  split; [reflexivity|]. split; [|exact Htok].
  rewrite <- Htok. reflexivity.
Defined.

(** ** Report names *)

Lemma string_length_app (s t : string) :
  String.length (s ++ t) = String.length s + String.length t.
Proof. induction s as [|c s IH]; [reflexivity|]. cbn. rewrite IH. reflexivity. Qed.

Lemma string_app_inj_tail (s1 : string) : forall s2 t1 t2,
  s1 ++ t1 = s2 ++ t2 -> String.length t1 = String.length t2 ->
  s1 = s2 /\ t1 = t2.
Proof.
  induction s1 as [|c1 s1 IH]; intros [|c2 s2] t1 t2 H Hlen.
  - auto.
  - cbn in H. subst t1. cbn in Hlen. rewrite string_length_app in Hlen. lia.
  - cbn in H. subst t2. cbn in Hlen. rewrite string_length_app in Hlen. lia.
  - cbn in H. injection H as -> H. destruct (IH _ _ _ H Hlen) as [-> ->]. auto.
Qed.

Lemma string_app_inv_head (s t1 t2 : string) : s ++ t1 = s ++ t2 -> t1 = t2.
Proof.
  induction s as [|c s IH]; intros H; [exact H|].
  cbn in H. injection H as H. apply IH, H.
Qed.

Lemma digit_char_inj a b : a < 10 -> b < 10 -> digit_char a = digit_char b -> a = b.
Proof.
  intros Ha Hb H. unfold digit_char in H. apply (f_equal nat_of_ascii) in H.
  rewrite !nat_ascii_embedding in H by lia. lia.
Qed.

Lemma two_digits_inj a b : a / 10 = b / 10 -> a mod 10 = b mod 10 -> a = b.
Proof.
  intros Hd Hm. rewrite (Nat.div_mod_eq a 10), (Nat.div_mod_eq b 10), Hd, Hm.
  reflexivity.
Qed.

Lemma four_digits_inj a b :
  a / 1000 = b / 1000 -> a / 100 mod 10 = b / 100 mod 10 ->
  a / 10 mod 10 = b / 10 mod 10 -> a mod 10 = b mod 10 -> a = b.
Proof.
  intros H3 H2 H1 H0.
  apply two_digits_inj; [|exact H0].
  apply two_digits_inj; [|exact H1].
  apply two_digits_inj.
  - rewrite !Nat.Div0.div_div. exact H3.
  - rewrite !Nat.Div0.div_div. exact H2.
Qed.

Lemma eight_chars_inj (a1 a2 a3 a4 a5 a6 a7 a8 b1 b2 b3 b4 b5 b6 b7 b8 : ascii) :
  String a1 (String a2 (String a3 (String a4 (String a5 (String a6 (String a7
    (String a8 ""))))))) =
  String b1 (String b2 (String b3 (String b4 (String b5 (String b6 (String b7
    (String b8 ""))))))) ->
  (a1 = b1 /\ a2 = b2 /\ a3 = b3 /\ a4 = b4) /\ (a5 = b5 /\ a6 = b6) /\ (a7 = b7 /\ a8 = b8).
Proof. intros H. injection H as -> -> -> -> -> -> -> ->. repeat split. Qed.

Lemma YYYYMMDD_inj d1 d2 :
  valid_date d1 -> valid_date d2 -> YYYYMMDD d1 = YYYYMMDD d2 -> d1 = d2.
Proof.
  intros (Hy1 & Hm1 & Hd1) (Hy2 & Hm2 & Hd2) H.
  apply eight_chars_inj in H.
  destruct H as ((E1 & E2 & E3 & E4) & (E5 & E6) & (E7 & E8)).
  assert (Hlt : forall n k, n < 10 * k -> n / k < 10).
  { intros n k Hn. apply Nat.Div0.div_lt_upper_bound. lia. }
  assert (Hmod : forall n, n mod 10 < 10) by (intros n; apply Nat.mod_upper_bound; lia).
  apply digit_char_inj in E1; [|apply Hlt; lia|apply Hlt; lia].
  apply digit_char_inj in E2; [|apply Hmod|apply Hmod].
  apply digit_char_inj in E3; [|apply Hmod|apply Hmod].
  apply digit_char_inj in E4; [|apply Hmod|apply Hmod].
  apply digit_char_inj in E5; [|apply Hlt; lia|apply Hlt; lia].
  apply digit_char_inj in E6; [|apply Hmod|apply Hmod].
  apply digit_char_inj in E7; [|apply Hlt; lia|apply Hlt; lia].
  apply digit_char_inj in E8; [|apply Hmod|apply Hmod].
  pose proof (four_digits_inj _ _ E1 E2 E3 E4) as Hy.
  pose proof (two_digits_inj _ _ E5 E6) as Hm.
  pose proof (two_digits_inj _ _ E7 E8) as Hd.
  destruct d1, d2. cbn [year month day] in Hy, Hm, Hd. subst. reflexivity.
Qed.

(** X11: the name of the report tells the playlist and the day apart: two
    runs on valid dates give their reports the same name only for the same
    playlist id on the same date. *)
Theorem report_names_do_not_collide env1 settings1 env2 settings2 :
  valid_date (today env1) -> valid_date (today env2) ->
  report_name env1 settings1 = report_name env2 settings2 ->
  YOUTUBE_PLAYLIST_ID settings1 = YOUTUBE_PLAYLIST_ID settings2 /\
  today env1 = today env2.
Proof.
  intros Hv1 Hv2 H. unfold report_name in H.
  assert (Hdate : forall d, valid_date d ->
            strftime_Y d ++ strftime_m d ++ strftime_d d ++ ".json"
              = YYYYMMDD d ++ ".json").
  { intros d Hd. rewrite <- (strftime_YYYYMMDD d Hd), !string_app_assoc. reflexivity. }
  rewrite (Hdate _ Hv1), (Hdate _ Hv2) in H.
  rewrite <- !(string_app_assoc "youtube-") in H.
  apply string_app_inj_tail in H; [|reflexivity].
  destruct H as [Hpid H].
  apply string_app_inv_head in Hpid, H.
  split; [exact Hpid|].
  apply string_app_inj_tail in H; [|reflexivity].
  apply YYYYMMDD_inj; [assumption|assumption|apply H].
Qed.

Lemma report_names_do_not_collide_witness :
  YOUTUBE_PLAYLIST_ID sample_settings = "PL_x" /\
  today env_two_songs = today env_mixed.
Proof.
  assert (Hv : valid_date (mkDate 2024 3 1)) by (vm_compute; lia).
  apply (report_names_do_not_collide env_two_songs sample_settings
           env_mixed sample_settings Hv Hv eq_refl).
Defined.

(** ** The snapshot document tells snapshots apart *)

Lemma PlaylistItem_dict_inj item1 item2 :
  PlaylistItem_dict item1 = PlaylistItem_dict item2 -> item1 = item2.
Proof.
  destruct item1, item2. unfold PlaylistItem_dict. cbn.
  intros H. injection H as -> ->. reflexivity.
Qed.

(** X12: [playlist.json()] loses nothing: two snapshots with the same
    document have the same items, in the same order, and the same name. *)
Theorem snapshot_documents_tell_snapshots_apart playlist1 playlist2 :
  Playlist_json playlist1 = Playlist_json playlist2 -> playlist1 = playlist2.
Proof.
  destruct playlist1 as [l1 n1], playlist2 as [l2 n2]. unfold Playlist_json.
  cbn [playlist_items playlist_name]. intros H. injection H as Hitems Hname.
  f_equal.
  - revert l2 Hitems. induction l1 as [|x l1 IH]; intros [|y l2] H;
      try discriminate; [reflexivity|].
    cbn [map] in H.
    assert (Hx : PlaylistItem_dict x = PlaylistItem_dict y) by congruence.
    assert (Hrest : map PlaylistItem_dict l1 = map PlaylistItem_dict l2) by congruence.
    apply PlaylistItem_dict_inj in Hx. subst y. f_equal. apply IH, Hrest.
  - destruct n1, n2; try discriminate; [injection Hname as ->|]; reflexivity.
Qed.

Lemma snapshot_documents_tell_snapshots_apart_witness :
  mkPlaylist [mkPlaylistItem "v1" "Song A"] None
    = mkPlaylist [mkPlaylistItem "v1" "Song A"] None.
Proof.
  apply snapshot_documents_tell_snapshots_apart. reflexivity.
Defined.

(** * The run on a console that can refuse a line *)

Lemma accepted_true console line : accepted console line = true -> console line = None.
Proof. unfold accepted. destruct (console line); [discriminate|reflexivity]. Qed.

Lemma print_with_accepted console line :
  console line = None -> print_with console line = print line.
Proof. intros H. unfold print_with. rewrite H. reflexivity. Qed.

Lemma print_with_rejected console line e :
  console line = Some e -> print_with console line = raise e.
Proof. intros H. unfold print_with. rewrite H. reflexivity. Qed.

Lemma bind_ext_on {A B} (m : M A) (k1 k2 : A -> M B) :
  (forall t a, m = (t, Ret a) -> k1 a = k2 a) -> bind m k1 = bind m k2.
Proof.
  intros H. destruct m as [t [a|e|]]; try reflexivity.
  unfold bind. rewrite (H t a eq_refl). reflexivity.
Qed.

Lemma try_except_ext_on (body : M unit) (h1 h2 : Exception -> M unit) :
  (forall t e, body = (t, Raise e) -> h1 e = h2 e) ->
  try_except body h1 = try_except body h2.
Proof.
  intros H. destruct body as [t [a|e|]]; try reflexivity.
  unfold try_except. rewrite (H t e eq_refl). reflexivity.
Qed.

Section Console.

Variable console : Console.
Variable env : Env.
Variable settings : Settings.

(** The body of the [try], which both models share up to the upload line. *)
Lemma turn_body_error i item t e :
  (buffer <- download env i (watch_url item) ;;
   print (":speak_no_evil: uploading " ++ title item ++ ".mp3 to GDrive") ;;
   files_create env (AtTrack i) (audio_request settings item buffer) ;;
   sleep (throttle (elapsed env i)))%effect = (t, Raise e) ->
  turn_error env settings i item = Some e.
Proof.
  unfold turn_error, download, files_create.
  destruct (stream_to_buffer env i (watch_url item)) as [e'|buffer].
  - cbn. intros H. injection H as _ ->. reflexivity.
  - cbv beta iota delta [lift bind ret emit fst snd print].
    destruct (create_execute env (AtTrack i) (audio_request settings item buffer))
      as [e'|].
    + cbn. intros H. injection H as _ ->. reflexivity.
    + destruct (throttle_sign (elapsed env i)) as [Hslow Hfast].
      destruct (Qlt_le_dec 30 (elapsed env i)) as [Hd|Hd].
      * rewrite (sleep_negative _ (Hslow Hd)). cbn. intros H. injection H as _ <-.
        reflexivity.
      * rewrite sleep_zero_or_more by (rewrite (Hfast Hd); lra).
        cbn. discriminate.
Qed.

(** A turn all of whose lines the console accepts runs as on the console
    that accepts everything. *)
Lemma turn_with_accepted i item :
  turn_accepted console env settings i item = true ->
  transfer_track_with console env settings i item = transfer_track env settings i item.
Proof.
  unfold turn_accepted. intros H.
  apply andb_prop in H. destruct H as [H Hwarn].
  apply andb_prop in H. destruct H as [Hdown Hup].
  apply accepted_true in Hdown.
  unfold transfer_track_with, transfer_track.
  rewrite (print_with_accepted _ _ Hdown).
  apply bind_ext_on. intros t0 u _.
  assert (Hbody :
    (buffer <- download env i (watch_url item) ;;
     print_with console (":speak_no_evil: uploading " ++ title item ++ ".mp3 to GDrive") ;;
     files_create env (AtTrack i) (audio_request settings item buffer) ;;
     sleep (throttle (perf_counter_stop env i - perf_counter_start env i)))%effect
    = (buffer <- download env i (watch_url item) ;;
       print (":speak_no_evil: uploading " ++ title item ++ ".mp3 to GDrive") ;;
       files_create env (AtTrack i) (audio_request settings item buffer) ;;
       sleep (throttle (perf_counter_stop env i - perf_counter_start env i)))%effect).
  { apply bind_ext_on. intros t buffer Hd.
    unfold download in Hd.
    destruct (stream_to_buffer env i (watch_url item)) as [e|b]; [discriminate|].
    apply accepted_true in Hup. rewrite (print_with_accepted _ _ Hup). reflexivity. }
  cbv zeta. rewrite Hbody.
  apply try_except_ext_on. intros t e Hraise.
  apply turn_body_error in Hraise. rewrite Hraise in Hwarn.
  apply accepted_true in Hwarn.
  apply (print_with_accepted _ _ Hwarn).
Qed.

(** A title the console refuses ends the turn before its download: the
    line is printed outside the [try]. *)
Lemma turn_with_refused_title i item e :
  console (":cd: downloading " ++ title item ++ " from YouTube") = Some e ->
  transfer_track_with console env settings i item = ([], Raise e).
Proof.
  intros H. unfold transfer_track_with. rewrite (print_with_rejected _ _ _ H).
  reflexivity.
Qed.

End Console.

Section ConsoleRun.

Variable console : Console.
Variable env : Env.
Variable settings : Settings.

Lemma loop_with_accepted l : forall i,
  turns_accepted console env settings i l = true ->
  transfer_tracks_with console env settings i l = transfer_tracks env settings i l.
Proof.
  induction l as [|item rest IH]; intros i H; [reflexivity|].
  cbn [turns_accepted] in H. apply andb_prop in H. destruct H as [Hturn Hrest].
  cbn [transfer_tracks_with transfer_tracks].
  rewrite (turn_with_accepted console env settings i item Hturn), (IH (S i) Hrest).
  reflexivity.
Qed.

(** The loop up to a title the console refuses: the turns before it run
    as usual, and nothing is done for that item or for any item after it. *)
Lemma loop_with_refused_title l1 : forall i k l2 e,
  turns_accepted console env settings i l1 = true ->
  console (":cd: downloading " ++ title k ++ " from YouTube") = Some e ->
  transfer_tracks_with console env settings i (l1 ++ k :: l2) =
    (trace_of (transfer_tracks env settings i l1), Raise e).
Proof.
  induction l1 as [|item rest IH]; intros i k l2 e Hacc Hk.
  - cbn [app transfer_tracks_with].
    rewrite (turn_with_refused_title console env settings i k e Hk). reflexivity.
  - cbn [turns_accepted] in Hacc. apply andb_prop in Hacc. destruct Hacc as [Hturn Hrest].
    cbn [app transfer_tracks_with].
    rewrite (turn_with_accepted console env settings i item Hturn).
    rewrite (IH (S i) k l2 e Hrest Hk), transfer_tracks_cons.
    pose proof (transfer_track_returns env settings i item) as Hr.
    destruct (transfer_track env settings i item) as [t o]. cbn in Hr. subst o.
    reflexivity.
Qed.

(** Past the report upload, the track loop follows. *)
Lemma run_with_after_report fuel t playlist :
  report_published console env settings fuel t playlist ->
  let loop := transfer_tracks_with console env settings 0 (playlist_items playlist) in
  entrypoint_with console env settings fuel =
    ((started ++ t ++ publishing
        ++ [Create AtReport (report_request env settings playlist) true]
        ++ trace_of loop)%list,
     outcome_of loop).
Proof.
  intros (Hy & Hc1 & Hs & Hc2 & Hd & Hr) loop. subst loop.
  unfold entrypoint_with, Youtube, GoogleDrive, discovery_build_call, publish_metadata,
    files_create.
  rewrite Hy, (print_with_accepted _ _ Hc1), (print_with_accepted _ _ Hc2), Hs, Hd.
  unfold print.
  rewrite bind_assoc, bind_emit, bind_ret_l, bind_emit.
  rewrite (bind_run _ _ t playlist eq_refl).
  rewrite bind_emit, bind_assoc, bind_emit, bind_ret_l, Hr, bind_emit.
  reflexivity.
Qed.

(** When the console accepts every line of the run, the run is the one
    on the console that accepts everything. *)
Lemma entrypoint_with_accepted fuel :
  console ":inbox_tray: downloading playlist metadata" = None ->
  console ":inbox_tray: uploading playlist metadata to GDrive" = None ->
  (forall t playlist,
     build_snapshot env settings fuel = (t, Ret playlist) ->
     turns_accepted console env settings 0 (playlist_items playlist) = true) ->
  entrypoint_with console env settings fuel = entrypoint env settings fuel.
Proof.
  intros Hc1 Hc2 Hturns. unfold entrypoint_with, entrypoint.
  rewrite (print_with_accepted _ _ Hc1), (print_with_accepted _ _ Hc2).
  apply bind_ext_on. intros _ _ _.
  apply bind_ext_on. intros _ _ _.
  apply bind_ext_on. intros t playlist Hs.
  rewrite (loop_with_accepted _ 0 (Hturns t playlist Hs)). reflexivity.
Qed.

End ConsoleRun.

Lemma over_turns_ext {A} (f g : nat -> PlaylistItem -> list A) l :
  (forall i item, f i item = g i item) ->
  forall i, over_turns f i l = over_turns g i l.
Proof.
  intros H. induction l as [|item rest IH]; intros i; [reflexivity|].
  cbn [over_turns]. rewrite H, IH. reflexivity.
Qed.

Lemma run_downloads env settings fuel t playlist :
  discovery_build env "youtube" "v3" = None ->
  build_snapshot env settings fuel = (t, Ret playlist) ->
  discovery_build env "drive" "v3" = None ->
  create_execute env AtReport (report_request env settings playlist) = None ->
  outcome_of (entrypoint env settings fuel) = Ret tt /\
  downloads (trace_of (entrypoint env settings fuel))
    = map watch_url (playlist_items playlist).
Proof.
  intros Hy Hs Hd Hc.
  rewrite (run_after_report env settings fuel t playlist Hy Hs Hd Hc).
  cbn [outcome_of snd trace_of fst].
  destruct (before_the_loop env settings fuel t _ Hs
              [Create AtReport (report_request env settings playlist) true])
    as (Hb & _).
  { intros ev [<-|[]]. eauto. }
  destruct (loop_shows env settings (playlist_items playlist) 0) as (Hl & _).
  split; [reflexivity|].
  rewrite !app_assoc, downloads_app, <- !app_assoc, Hb, Hl. reflexivity.
Qed.

(** A run past its report upload, on a console that accepts the lines of
    its turns, is the run on the console that accepts everything. *)
Lemma accepted_run console env settings fuel t playlist :
  report_published console env settings fuel t playlist ->
  turns_accepted console env settings 0 (playlist_items playlist) = true ->
  entrypoint_with console env settings fuel = entrypoint env settings fuel.
Proof.
  intros (Hy & Hc1 & Hs & Hc2 & Hd & Hr) Hturns.
  apply entrypoint_with_accepted; [exact Hc1|exact Hc2|].
  intros t' playlist' Hs'. rewrite Hs in Hs'. injection Hs' as _ <-. exact Hturns.
Qed.

(** X1: once the report upload has returned, and as long as the console
    accepts the lines of the turns, the run downloads every item of the
    snapshot exactly once, in snapshot order, from
    https://youtube.com/watch?v={video}, whatever download or upload fails on
    the way, and then returns normally. *)
Theorem every_item_is_attempted_once console env settings fuel t playlist :
  report_published console env settings fuel t playlist ->
  turns_accepted console env settings 0 (playlist_items playlist) = true ->
  let run := entrypoint_with console env settings fuel in
  outcome_of run = Ret tt /\
  downloads (trace_of run) =
    map (fun item => "https://youtube.com/watch?v=" ++ video item)
        (playlist_items playlist) /\
  List.length (downloads (trace_of run)) = List.length (playlist_items playlist).
Proof.
  intros Hp Hturns run. subst run.
  rewrite (accepted_run console env settings fuel t playlist Hp Hturns).
  destruct Hp as (Hy & _ & Hs & _ & Hd & Hr).
  destruct (run_downloads env settings fuel t playlist Hy Hs Hd Hr) as [Ho Hdl].
  split; [exact Ho|]. rewrite Hdl. split; [reflexivity|apply length_map].
Qed.

Lemma every_item_is_attempted_once_witness :
  outcome_of (entrypoint_with sample_console env_mixed_bytes sample_settings 1) = Ret tt /\
  downloads (trace_of (entrypoint_with sample_console env_mixed_bytes sample_settings 1)) =
    ["https://youtube.com/watch?v=v1"; "https://youtube.com/watch?v=v2";
     "https://youtube.com/watch?v=v3"].
Proof.
  assert (Hp : report_published sample_console env_mixed_bytes sample_settings 1
                 [ListPage (page_request "PL_x" None)]
                 (mkPlaylist [mkPlaylistItem "v1" "Song A"; mkPlaylistItem "v2" "Song B";
                              mkPlaylistItem "v3" "Song C"] None)).
  { repeat split. }
  destruct (every_item_is_attempted_once sample_console env_mixed_bytes sample_settings 1
              _ _ Hp eq_refl) as (Ho & Hd & _).
  split; [exact Ho|exact Hd].
Defined.

(** X2: in such a run an audio upload is attempted exactly for the items
    whose download succeeded, in snapshot order: a call named {title}.mp3,
    of type audio/mpeg3, into the audio folder, whose body is the bytes that
    download returned; the objects created are those of these calls that the
    provider accepted. *)
Theorem uploads_follow_downloads console env settings fuel t playlist :
  report_published console env settings fuel t playlist ->
  turns_accepted console env settings 0 (playlist_items playlist) = true ->
  let run := trace_of (entrypoint_with console env settings fuel) in
  let upload item buffer :=
    mkCreateRequest (title item ++ ".mp3") [GOOGLE_AUDIO_PARENT_ID settings]
                    (Bytes buffer) "audio/mpeg3" in
  let downloaded i item :=
    stream_to_buffer env i ("https://youtube.com/watch?v=" ++ video item) in
  audio_calls run =
    over_turns (fun i item => match downloaded i item with
                              | inr buffer => [upload item buffer]
                              | inl _ => []
                              end) 0 (playlist_items playlist) /\
  audio_objects run =
    over_turns (fun i item =>
                  match downloaded i item with
                  | inr buffer =>
                      match create_execute env (AtTrack i) (upload item buffer) with
                      | None => [upload item buffer]
                      | Some _ => []
                      end
                  | inl _ => []
                  end) 0 (playlist_items playlist) /\
  incl (audio_objects run) (audio_calls run) /\
  List.length (audio_calls run) <= List.length (playlist_items playlist).
Proof.
  intros Hp Hturns run upload downloaded. subst run upload downloaded.
  rewrite (accepted_run console env settings fuel t playlist Hp Hturns).
  destruct Hp as (Hy & _ & Hs & _ & Hd & Hr).
  destruct (run_shows_loop env settings fuel t playlist Hy Hs Hd Hr) as (Ha & Ho & _).
  destruct (loop_shows env settings (playlist_items playlist) 0) as (_ & Ha' & Ho' & _).
  rewrite Ha, Ho, Ha', Ho'.
  split; [|split; [|split]].
  - apply over_turns_ext. intros i item. reflexivity.
  - apply over_turns_ext. intros i item. unfold turn_objects, turn_calls.
    change (watch_url item) with ("https://youtube.com/watch?v=" ++ video item).
    destruct (stream_to_buffer env i ("https://youtube.com/watch?v=" ++ video item))
      as [e|buffer]; [reflexivity|].
    cbn [filter]. unfold audio_request.
    destruct (create_execute env (AtTrack i) _); reflexivity.
  - apply turn_objects_among_calls.
  - apply over_turns_length_le. intros i item. unfold turn_calls.
    destruct (stream_to_buffer env i (watch_url item)); cbn; lia.
Qed.

Lemma uploads_follow_downloads_witness :
  audio_calls (trace_of (entrypoint_with sample_console env_mixed_bytes sample_settings 1))
    = [mkCreateRequest "Song B.mp3" ["audio-folder"] (Bytes [Byte.x01]) "audio/mpeg3";
       mkCreateRequest "Song C.mp3" ["audio-folder"] (Bytes [Byte.x02; Byte.x03])
                       "audio/mpeg3"] /\
  audio_objects (trace_of (entrypoint_with sample_console env_mixed_bytes sample_settings 1))
    = [mkCreateRequest "Song C.mp3" ["audio-folder"] (Bytes [Byte.x02; Byte.x03])
                       "audio/mpeg3"].
Proof.
  assert (Hp : report_published sample_console env_mixed_bytes sample_settings 1
                 [ListPage (page_request "PL_x" None)]
                 (mkPlaylist [mkPlaylistItem "v1" "Song A"; mkPlaylistItem "v2" "Song B";
                              mkPlaylistItem "v3" "Song C"] None)).
  { repeat split. }
  destruct (uploads_follow_downloads sample_console env_mixed_bytes sample_settings 1
              _ _ Hp eq_refl) as (Ha & Ho & _).
  rewrite Ha, Ho. split; reflexivity.
Defined.

(** X3: in such a run the warnings printed are, in snapshot order, one
    for each item whose download failed, whose upload was refused, or whose
    upload took more than 30 seconds, with the item's title and the text of
    the exception, and none for any other item; so there is at most one
    warning per item. *)
Theorem warnings_are_per_item console env settings fuel t playlist :
  report_published console env settings fuel t playlist ->
  turns_accepted console env settings 0 (playlist_items playlist) = true ->
  let run := trace_of (entrypoint_with console env settings fuel) in
  warnings run =
    over_turns (fun i item =>
                  match turn_error env settings i item with
                  | Some e =>
                      [":warning: [yellow]error while processing track "
                         ++ title item ++ ": " ++ exc_str e ++ "[/yellow]"]
                  | None => []
                  end) 0 (playlist_items playlist) /\
  List.length (warnings run) <= List.length (playlist_items playlist).
Proof.
  intros Hp Hturns run. subst run.
  rewrite (accepted_run console env settings fuel t playlist Hp Hturns).
  destruct Hp as (Hy & _ & Hs & _ & Hd & Hr).
  destruct (run_shows_loop env settings fuel t playlist Hy Hs Hd Hr)
    as (_ & _ & Hw & _).
  destruct (loop_shows env settings (playlist_items playlist) 0) as (_ & _ & _ & Hw' & _).
  rewrite Hw, Hw'.
  assert (Hturn : forall i item,
            turn_warnings env settings i item =
              match turn_error env settings i item with
              | Some e =>
                  [":warning: [yellow]error while processing track "
                     ++ title item ++ ": " ++ exc_str e ++ "[/yellow]"]
              | None => []
              end).
  { intros i item. unfold turn_warnings, turn_error.
    destruct (stream_to_buffer env i (watch_url item)); [reflexivity|].
    destruct (create_execute env (AtTrack i) _); [reflexivity|].
    destruct (Qlt_le_dec 30 (elapsed env i)); reflexivity. }
  split.
  - apply over_turns_ext. exact Hturn.
  - apply over_turns_length_le. intros i item. rewrite Hturn.
    destruct (turn_error env settings i item); cbn; lia.
Qed.

Lemma warnings_are_per_item_witness :
  warnings (trace_of (entrypoint_with sample_console env_mixed_bytes sample_settings 1)) =
    [":warning: [yellow]error while processing track Song A: video unavailable[/yellow]";
     ":warning: [yellow]error while processing track Song B: quota exceeded[/yellow]";
     ":warning: [yellow]error while processing track Song C: sleep length must be non-negative[/yellow]"].
Proof.
  assert (Hp : report_published sample_console env_mixed_bytes sample_settings 1
                 [ListPage (page_request "PL_x" None)]
                 (mkPlaylist [mkPlaylistItem "v1" "Song A"; mkPlaylistItem "v2" "Song B";
                              mkPlaylistItem "v3" "Song C"] None)).
  { repeat split. }
  destruct (warnings_are_per_item sample_console env_mixed_bytes sample_settings 1
              _ _ Hp eq_refl) as (Hw & _).
  rewrite Hw. reflexivity.
Defined.

(** X5: on a console that accepts the lines of the run, a run returns
    normally exactly when both clients are built, the snapshot is built and
    the report upload is accepted; no failed download or upload afterwards
    changes that. *)
Theorem run_returns_iff_report_published console env settings fuel :
  console ":inbox_tray: downloading playlist metadata" = None ->
  console ":inbox_tray: uploading playlist metadata to GDrive" = None ->
  (forall t playlist,
     build_snapshot env settings fuel = (t, Ret playlist) ->
     turns_accepted console env settings 0 (playlist_items playlist) = true) ->
  (outcome_of (entrypoint_with console env settings fuel) = Ret tt <->
   (discovery_build env "youtube" "v3" = None /\
    exists t playlist,
      build_snapshot env settings fuel = (t, Ret playlist) /\
      discovery_build env "drive" "v3" = None /\
      create_execute env AtReport (report_request env settings playlist) = None)).
Proof.
  intros Hc1 Hc2 Hturns.
  rewrite (entrypoint_with_accepted console env settings fuel Hc1 Hc2 Hturns).
  rewrite entrypoint_stages. split.
  - intros H.
    destruct (discovery_build env "youtube" "v3"); [discriminate|].
    split; [reflexivity|].
    destruct (build_snapshot env settings fuel) as [t [playlist|e|]];
      [|discriminate|discriminate].
    exists t, playlist. split; [reflexivity|].
    destruct (discovery_build env "drive" "v3"); [discriminate|].
    split; [reflexivity|]. cbv zeta in H.
    destruct (create_execute env AtReport (report_request env settings playlist));
      [discriminate|reflexivity].
  - intros (Hy & t & playlist & Hs & Hd & Hc).
    rewrite Hy, Hs, Hd. cbv zeta. rewrite Hc. reflexivity.
Qed.

Lemma run_returns_iff_report_published_witness :
  outcome_of (entrypoint_with sample_console env_mixed_bytes sample_settings 1) = Ret tt /\
  outcome_of (entrypoint_with sample_console env_report_fails sample_settings 1) <> Ret tt.
Proof.
  split.
  - apply run_returns_iff_report_published; try reflexivity.
    + intros t playlist Hs. injection Hs as _ <-. reflexivity.
    + split; [reflexivity|]. eexists _, _. split; [reflexivity|]. split; reflexivity.
  - intros H. apply run_returns_iff_report_published in H; try reflexivity.
    + destruct H as (_ & t & playlist & Hs & _ & Hc).
      injection Hs as <- <-. discriminate.
    + intros t playlist Hs. injection Hs as _ <-. reflexivity.
Defined.

(** X13: the download line of a turn is printed outside the [try].  When
    the console refuses it for an item, the exception ends the run there:
    the items before it have had their turns, and neither that item nor any
    item after it is downloaded or uploaded. *)
Theorem refused_title_ends_the_run console env settings fuel t playlist before k after e :
  report_published console env settings fuel t playlist ->
  playlist_items playlist = (before ++ k :: after)%list ->
  turns_accepted console env settings 0 before = true ->
  console (":cd: downloading " ++ title k ++ " from YouTube") = Some e ->
  let run := entrypoint_with console env settings fuel in
  run = ((started ++ t ++ publishing
            ++ [Create AtReport (report_request env settings playlist) true]
            ++ trace_of (transfer_tracks env settings 0 before))%list,
         Raise e) /\
  downloads (trace_of run) =
    map (fun item => "https://youtube.com/watch?v=" ++ video item) before /\
  List.length (audio_calls (trace_of run)) <= List.length before.
Proof.
  intros Hp Hitems Hacc Hk run. subst run.
  rewrite (run_with_after_report console env settings fuel t playlist Hp). cbv zeta.
  rewrite Hitems, (loop_with_refused_title console env settings before 0 k after e Hacc Hk).
  cbn [trace_of fst outcome_of snd].
  destruct Hp as (_ & _ & Hs & _).
  destruct (before_the_loop env settings fuel t _ Hs
              [Create AtReport (report_request env settings playlist) true])
    as (Hb & Ha & _).
  { intros ev [<-|[]]. eauto. }
  destruct (loop_shows env settings before 0) as (Hl & Ha' & _).
  split; [reflexivity|]. split.
  - rewrite !app_assoc, downloads_app, <- !app_assoc, Hb, Hl. reflexivity.
  - rewrite !app_assoc, audio_calls_app, <- !app_assoc, Ha, Ha'.
    apply over_turns_length_le. intros i item. unfold turn_calls.
    destruct (stream_to_buffer env i (watch_url item)); cbn; lia.
Qed.

Lemma refused_title_ends_the_run_witness :
  outcome_of (entrypoint_with sample_console env_bad_title sample_settings 1) =
    Raise (MarkupError "closing tag '[/b]' does not match any open tag") /\
  downloads (trace_of (entrypoint_with sample_console env_bad_title sample_settings 1)) =
    ["https://youtube.com/watch?v=v1"].
Proof.
  assert (Hp : report_published sample_console env_bad_title sample_settings 1
                 [ListPage (page_request "PL_x" None)]
                 (mkPlaylist [mkPlaylistItem "v1" "Song A"; mkPlaylistItem "v2" "Song [/b]";
                              mkPlaylistItem "v3" "Song C"] None)).
  { repeat split. }
  destruct (refused_title_ends_the_run sample_console env_bad_title sample_settings 1 _ _
              [mkPlaylistItem "v1" "Song A"] (mkPlaylistItem "v2" "Song [/b]")
              [mkPlaylistItem "v3" "Song C"]
              (MarkupError "closing tag '[/b]' does not match any open tag")
              Hp eq_refl eq_refl eq_refl) as (Hrun & Hd & _).
  split; [rewrite Hrun; reflexivity|exact Hd].
Defined.
